(** * Cast helpers: device descriptors, status listeners, playlist parsers

    A shallow embedding of [homeassistant/components/cast/helpers.py] and the
    properties of it that the specification states.

    Conventions.
    - A Python [str] is a Rocq [string]; every character stands for the code
      point of the same number, so the texts covered are those whose code
      points are below 256.
    - A Python call that may raise returns a value of [result]: either the
      exception or the value.
    - Calls into collaborators (the dial REST helpers, the multizone manager,
      the chromecast connection, [configparser]) are not code of this
      component; they appear as section variables or as the data they return. *)

From Stdlib Require Import ZArith Lia Ascii.
From stdpp Require Import base option list gmap strings pretty.


(** ** Python string primitives used by the parsers *)

Module PyStr.

Definition code (c : ascii) : nat := nat_of_ascii c.

(** Line boundaries of [str.splitlines]: LF, VT, FF, CR, FS, GS, RS, NEL
    (the two boundaries above 255, U+2028 and U+2029, are out of range). *)
Definition is_linebreak (c : ascii) : bool :=
  let n := code c in
  ((10 <=? n) && (n <=? 13)) || ((28 <=? n) && (n <=? 30)) || (n =? 133).

(** Whitespace of [str.strip] without argument, below 256. *)
Definition is_space (c : ascii) : bool :=
  let n := code c in
  ((9 <=? n) && (n <=? 13)) || ((28 <=? n) && (n <=? 32))
  || (n =? 133) || (n =? 160).

Definition CR : ascii := "013"%char.
Definition LF : ascii := "010"%char.

(** A text of one line feed. *)
Definition newline : string := String LF "".

(** [cur] is the current line, reversed. *)
Fixpoint splitlines_go (cur : string) (s : string) : list string :=
  match s with
  | "" => match cur with "" => [] | _ => [String.rev cur] end
  | String c s' =>
      if is_linebreak c then
        String.rev cur ::
          match s' with
          | String c' s'' =>
              if (Ascii.eqb c CR && Ascii.eqb c' LF)%bool
              then splitlines_go "" s''
              else splitlines_go "" s'
          | "" => splitlines_go "" s'
          end
      else splitlines_go (String c cur) s'
  end.

(** [s.splitlines()] *)
Definition splitlines (s : string) : list string := splitlines_go "" s.

Fixpoint lstrip (s : string) : string :=
  match s with
  | String c s' => if is_space c then lstrip s' else s
  | "" => ""
  end.

Definition rstrip (s : string) : string := String.rev (lstrip (String.rev s)).

(** [s.strip()] *)
Definition strip (s : string) : string := rstrip (lstrip s).

(** [Some rest] when [s = p ++ rest]. *)
Fixpoint strip_prefix (p s : string) : option string :=
  match p with
  | "" => Some s
  | String a p' =>
      match s with
      | String b s' => if Ascii.eqb a b then strip_prefix p' s' else None
      | "" => None
      end
  end.

(** [s.startswith(p)] *)
Definition startswith (s p : string) : bool :=
  match strip_prefix p s with Some _ => true | None => false end.

(** The text before and after the leftmost occurrence of [sep] in [s]. *)
Fixpoint partition (sep s : string) : option (string * string) :=
  match strip_prefix sep s with
  | Some rest => Some ("", rest)
  | None =>
      match s with
      | "" => None
      | String c s' =>
          match partition sep s' with
          | Some (a, b) => Some (String c a, b)
          | None => None
          end
      end
  end.

(** [s.split(sep, maxsplit)] for [maxsplit >= 0] and a non-empty [sep]. *)
Fixpoint split_max (sep : string) (maxsplit : nat) (s : string) : list string :=
  match maxsplit with
  | 0 => [s]
  | S k =>
      match partition sep s with
      | None => [s]
      | Some (a, b) => a :: split_max sep k b
      end
  end.

(** [s.split(sep)]: no bound on the number of splits. A non-empty
    separator occurs at most [length s] times. *)
Definition split (sep : string) (s : string) : list string :=
  split_max sep (String.length s) s.

(** [sub in s] for a one-character [sub]. *)
Fixpoint contains_char (c : ascii) (s : string) : bool :=
  match s with
  | "" => false
  | String a s' => Ascii.eqb c a || contains_char c s'
  end.

End PyStr.

(** ** Exceptions and results *)

Inductive PlaylistErrorKind :=
| FetchTimeout
| FetchClientError
| EmptyPlaylist
| CantParsePlaylist
| InvalidPlaylist
| InvalidNumberOfEntries.

Inductive exn :=
| PlaylistError (k : PlaylistErrorKind)
| IndexError
| KeyError
| ValueError
| NoOptionError
| InterpolationError.

Inductive result (A : Type) :=
| Raise (e : exn)
| Return (a : A).
Arguments Raise {A} e.
Arguments Return {A} a.

(** Sequencing: an exception raised by the first call skips the rest. *)
#[global] Instance result_bind : MBind result := λ A B k r,
  match r with
  | Raise e => Raise e
  | Return a => k a
  end.

(** ** Playlist items *)

(** What the [length] attribute of a [PlaylistItem] holds at run time:
    [parse_pls] stores a string, [parse_m3u] stores the list returned by
    [str.split]. *)
Inductive LengthValue :=
| LenStr (s : string)
| LenList (parts : list string).

Module PlaylistItem.
Record t := mk {
  length : option LengthValue;
  title : option string;
  url : string
}.
End PlaylistItem.

(** ** [parse_m3u] *)

Module M3u.
Import PyStr.

Definition EXTINF : string := "#EXTINF:".

(** The loop variables [length], [title], [playlist]. *)
Record LoopState := mkLoop {
  st_length : option LengthValue;
  st_title : option string;
  playlist : list PlaylistItem.t
}.

Definition init : LoopState := mkLoop None None [].

(** One iteration of [for line in m3u_lines]. *)
Definition loop_body (st : LoopState) (line0 : string) : result LoopState :=
  let line := strip line0 in
  if startswith line EXTINF then
    match split EXTINF line !! 1%nat with
    | None => Raise IndexError
    | Some seg =>
        let info := split_max "," 1 seg in
        match info with
        | [info0; info1] =>
            Return (mkLoop (Some (LenList (split_max " " 1 info0)))
                           (Some (strip info1))
                           (playlist st))
        | _ => Return st
        end
    end
  else if startswith line "#" then Return st
  else if negb (String.length line =? 0) then
    Return (mkLoop None None
              (playlist st ++ [PlaylistItem.mk (st_length st) (st_title st) line]))
  else Return st.

Fixpoint loop (st : LoopState) (lines : list string) : result LoopState :=
  match lines with
  | [] => Return st
  | line :: rest => st' ← loop_body st line; loop st' rest
  end.

(** [parse_m3u], from the outcome of [_fetch_playlist] on. *)
Definition parse_m3u (fetched : result string) : result (list PlaylistItem.t) :=
  m3u_data ← fetched;
  let m3u_lines := splitlines m3u_data in
  match m3u_lines with
  | [] => Raise (PlaylistError EmptyPlaylist)
  | _ => st ← loop init m3u_lines; Return (playlist st)
  end.

(** Line classes, named after the tests of the loop body. *)

(** A line that reaches the last branch: a media URL. *)
Definition is_url (line0 : string) : bool :=
  let line := strip line0 in
  negb (startswith line "#") && negb (String.length line =? 0).

(** The text of a stripped [#EXTINF:] line after the marker. *)
Definition extinf_rest (line0 : string) : option string :=
  strip_prefix EXTINF (strip line0).

(** The list [info] that the loop body computes on an [#EXTINF:] line. *)
Definition extinf_info (line0 : string) : option (list string) :=
  let line := strip line0 in
  if startswith line EXTINF then
    seg ← split EXTINF line !! 1%nat; Some (split_max "," 1 seg)
  else None.

(** The line stores a new pending length and title. *)
Definition sets_metadata (line0 : string) : bool :=
  match extinf_info line0 with
  | Some [_; _] => true
  | _ => false
  end.

(** An [#EXTINF:] line with no comma after the marker. *)
Definition invalid_extinf (line0 : string) : bool :=
  match extinf_rest line0 with
  | Some rest => negb (contains_char "," rest)
  | None => false
  end.

(** Two playlists: metadata, a URL, a comment and a second URL; and metadata,
    an [#EXTINF:] line without comma, and a URL. *)
Definition two_urls_text : string :=
  "#EXTINF:1,T" +:+ newline +:+ "http://a" +:+ newline +:+ "# comment"
  +:+ newline +:+ "http://b".

Definition invalid_extinf_text : string :=
  "#EXTINF:-1,T" +:+ newline +:+ "#EXTINF:bad" +:+ newline +:+ "http://a/b".

(** No pending field is set: the loop variables [length] and [title]. *)
Definition pending_clear (st : LoopState) : Prop :=
  st_length st = None ∧ st_title st = None.

End M3u.

(** ** [configparser], as [parse_pls] uses it *)

Module ConfigParser.
Import PyStr.

(** [str.lower] below 256: A-Z, and the upper-case letters of Latin-1. *)
Definition lower_char (c : ascii) : ascii :=
  let n := code c in
  if ((65 <=? n) && (n <=? 90))
     || ((192 <=? n) && (n <=? 222) && negb (n =? 215))
  then ascii_of_nat (n + 32) else c.

Fixpoint lower (s : string) : string :=
  match s with
  | "" => ""
  | String c s' => String (lower_char c) (lower s')
  end.

(** [ConfigParser.optionxform]: option names are stored and looked up in
    lower case. *)
Definition optionxform (optionstr : string) : string := lower optionstr.

(** Decimal digits with single underscores between them. *)
Fixpoint digits_go (acc : Z) (after_digit : bool) (s : string) : option Z :=
  match s with
  | "" => if after_digit then Some acc else None
  | String c s' =>
      match Ascii.is_nat c with
      | Some d => digits_go (10 * acc + Z.of_nat d) true s'
      | None =>
          if Ascii.eqb c "_" && after_digit then digits_go acc false s' else None
      end
  end.

(** The white space that [int] skips around a literal: tab to carriage
    return, the space and, below 256, NEL and the no-break space. The
    separators FS to US, which [str.strip] removes, are not among them. *)
Definition is_int_space (c : ascii) : bool :=
  let n := code c in
  ((9 <=? n) && (n <=? 13)) || (n =? 32) || (n =? 133) || (n =? 160).

Fixpoint int_lstrip (s : string) : string :=
  match s with
  | String c s' => if is_int_space c then int_lstrip s' else s
  | "" => ""
  end.

Definition int_strip (s : string) : string :=
  String.rev (int_lstrip (String.rev (int_lstrip s))).

(** The number of digit characters of a literal; signs, underscores and
    white space do not count. *)
Fixpoint count_digits (s : string) : nat :=
  match s with
  | "" => 0
  | String c s' =>
      match Ascii.is_nat c with
      | Some _ => S (count_digits s')
      | None => count_digits s'
      end
  end.

(** [sys.int_info.default_max_str_digits]: [int] refuses a literal with more
    digits. *)
Definition int_max_str_digits : nat := 4300.

(** [int(s)] on a string: white space around, an optional sign, then decimal
    digits, at most [int_max_str_digits] of them. *)
Definition py_int (s : string) : result Z :=
  let t := int_strip s in
  let '(negative, digits) :=
    match t with
    | String "-" r => (true, r)
    | String "+" r => (false, r)
    | _ => (false, t)
    end in
  if int_max_str_digits <? count_digits digits then Raise ValueError
  else
    match digits_go 0 false digits with
    | Some n => Return (if negative : bool then (- n)%Z else n)
    | None => Raise ValueError
    end.

(** A section of a parser that has read a text: for each stored option name,
    what [get] gives for it, the interpolated value or the interpolation
    error that the raw value causes. *)
Abbreviation SectionProxy := (gmap string (result string)).

(** The parser object after [read_string]: its sections by name. *)
Abbreviation Parser := (gmap string SectionProxy).

(** [option in section] *)
Definition has_option (section : SectionProxy) (key : string) : bool :=
  bool_decide (is_Some (section !! optionxform key)).

(** [section.get(option)], with its default [fallback=None] *)
Definition proxy_get (section : SectionProxy) (key : string)
  : result (option string) :=
  match section !! optionxform key with
  | None => Return None
  | Some r => v ← r; Return (Some v)
  end.

(** [section[option]] *)
Definition proxy_getitem (section : SectionProxy) (key : string)
  : result string :=
  match section !! optionxform key with
  | None => Raise KeyError
  | Some r => r
  end.

(** [section.getint(option)], with its default [fallback=None]: a missing
    option gives [None], a value that is no integer raises [ValueError]. *)
Definition proxy_getint (section : SectionProxy) (key : string)
  : result (option Z) :=
  match section !! optionxform key with
  | None => Return None
  | Some r => v ← r; n ← py_int v; Return (Some n)
  end.

(** [parser.getint(section, option)] on a section that exists. *)
Definition parser_getint (section : SectionProxy) (key : string)
  : result Z :=
  match section !! optionxform key with
  | None => Raise NoOptionError
  | Some r => v ← r; py_int v
  end.

End ConfigParser.

(** ** [parse_pls] *)

Module Pls.
Import ConfigParser.

Definition _PLS_SECTION_PLAYLIST : string := "playlist".

(** [f"{name}{entry}"] *)
Definition option_name (name : string) (entry : Z) : string :=
  name +:+ pretty entry.

(** One iteration of [for entry in range(1, num_entries + 1)]. *)
Definition loop_body (playlist_section : SectionProxy)
    (playlist : list PlaylistItem.t) (entry : Z)
  : result (list PlaylistItem.t) :=
  let file_option := option_name "File" entry in
  if negb (has_option playlist_section file_option) then Return playlist
  else
    length ← proxy_get playlist_section (option_name "Length" entry);
    title ← proxy_get playlist_section (option_name "Title" entry);
    url ← proxy_getitem playlist_section file_option;
    Return (playlist ++ [PlaylistItem.mk (LenStr <$> length) title url]).

Fixpoint loop (playlist_section : SectionProxy)
    (playlist : list PlaylistItem.t) (entries : list Z)
  : result (list PlaylistItem.t) :=
  match entries with
  | [] => Return playlist
  | entry :: rest =>
      playlist' ← loop_body playlist_section playlist entry;
      loop playlist_section playlist' rest
  end.

(** [range(1, num_entries + 1)] *)
Definition entry_range (num_entries : Z) : list Z := seqZ 1 num_entries.

(** The value that [get] finds under a name, if it finds one. *)
Definition value (playlist_section : SectionProxy) (name : string)
  : option string :=
  match playlist_section !! optionxform name with
  | Some (Return v) => Some v
  | _ => None
  end.

(** The item that entry index [entry] stands for, if [File{entry}] is there. *)
Definition entry_item (playlist_section : SectionProxy) (entry : Z)
  : option PlaylistItem.t :=
  url ← value playlist_section (option_name "File" entry);
  Some (PlaylistItem.mk
          (LenStr <$> value playlist_section (option_name "Length" entry))
          (value playlist_section (option_name "Title" entry))
          url).

(** No option of the section has a value that fails to interpolate. *)
Definition interpolates (playlist_section : SectionProxy) : Prop :=
  ∀ name r, playlist_section !! name = Some r → ∃ v, r = Return v.

Section parse_pls.

(** [ConfigParser().read_string]: the parser it leaves, or [None] when it
    raises a [configparser.Error]. *)
Variable read_string : string → option Parser.

(** [parse_pls], from the outcome of [_fetch_playlist] on. *)
Definition parse_pls (fetched : result string) : result (list PlaylistItem.t) :=
  pls_data ← fetched;
  match read_string pls_data with
  | None => Raise (PlaylistError CantParsePlaylist)
  | Some pls_parser =>
      match pls_parser !! _PLS_SECTION_PLAYLIST with
      | None => Raise (PlaylistError InvalidPlaylist)
      | Some playlist_section =>
          version ← proxy_getint playlist_section "Version";
          if negb (bool_decide (version = Some 2%Z))
          then Raise (PlaylistError InvalidPlaylist)
          else
            match parser_getint playlist_section "NumberOfEntries" with
            | Raise NoOptionError | Raise ValueError =>
                Raise (PlaylistError InvalidNumberOfEntries)
            | Raise e => Raise e
            | Return num_entries =>
                loop playlist_section [] (entry_range num_entries)
            end
      end
  end.

End parse_pls.

(** A playlist whose [Version] is no integer: the text, and the parser that
    [read_string] leaves after it. *)
Definition version_abc_text : string :=
  "[playlist]" +:+ PyStr.newline +:+ "Version=abc" +:+ PyStr.newline
  +:+ "NumberOfEntries=1" +:+ PyStr.newline +:+ "File1=http://x"
  +:+ PyStr.newline.

Definition version_abc_parser : Parser :=
  {[ "playlist" :=
       list_to_map [("version", Return "abc");
                    ("numberofentries", Return "1");
                    ("file1", Return "http://x")] ]}.

(** A playlist whose URL holds a percent sign that is no interpolation
    reference, as in [File1=http://x/%20y]: [get] raises on it. *)
Definition percent_url_parser : Parser :=
  {[ "playlist" :=
       list_to_map [("version", Return "2");
                    ("numberofentries", Return "1");
                    ("file1", Raise InterpolationError)] ]}.

(** The playlist of the specification with two entries. *)
Definition two_entries_parser : Parser :=
  {[ "playlist" :=
       list_to_map [("version", Return "2");
                    ("numberofentries", Return "2");
                    ("file1", Return "http://x");
                    ("title1", Return "Song");
                    ("file2", Return "http://y")] ]}.

End Pls.

(** ** Device descriptors *)

Abbreviation UUID := string (only parsing).

(** [pychromecast.models.CastInfo]: the fields that this module reads. *)
Module CastInfo.
Record t := mk {
  services : list string;
  uuid : UUID;
  friendly_name : string;
  cast_type : option string;
  manufacturer : option string
}.
End CastInfo.

(** What [dial.get_multizone_status] returns. *)
Module MultizoneStatus.
Record MultizoneInfo := mkInfo {
  friendly_name : string;
  uuid : UUID
}.
Record t := mk {
  dynamic_groups : list MultizoneInfo;
  groups : list MultizoneInfo
}.
End MultizoneStatus.

Module ChromecastInfo.

Record t := mk {
  cast_info : CastInfo.t;
  is_dynamic_group : option bool
}.

Definition friendly_name (self : t) : string :=
  CastInfo.friendly_name (cast_info self).

Definition uuid (self : t) : UUID := CastInfo.uuid (cast_info self).

Section dial.

(** [pychromecast.const.CAST_TYPE_GROUP] *)
Variable CAST_TYPE_GROUP : string.

Definition is_audio_group (self : t) : bool :=
  bool_decide (CastInfo.cast_type (cast_info self) = Some CAST_TYPE_GROUP).

(** The zeroconf instance that [ChromeCastZeroconf.get_zeroconf()] returns,
    and the two blocking queries of [pychromecast.dial]. *)
Variable Zeroconf : Type.
Variable zconf : option Zeroconf.
Variable get_cast_type : CastInfo.t → option Zeroconf → CastInfo.t.
Variable get_multizone_status :
  list string → option Zeroconf → option MultizoneStatus.t.

Definition fill_out_missing_chromecast_info (self : t) : t :=
  let cast_info' :=
    if bool_decide (CastInfo.cast_type (cast_info self) = None)
       || bool_decide (CastInfo.manufacturer (cast_info self) = None)
    then get_cast_type (cast_info self) zconf
    else cast_info self in
  if negb (is_audio_group self)
     || negb (bool_decide (is_dynamic_group self = None))
  then mk cast_info' None
  else
    let http_group_status :=
      get_multizone_status (CastInfo.services (cast_info self)) zconf in
    let is_dynamic_group' :=
      match http_group_status with
      | Some status =>
          existsb
            (λ g, bool_decide
                    (MultizoneStatus.uuid g = CastInfo.uuid (cast_info self)))
            (MultizoneStatus.dynamic_groups status)
      | None => false
      end in
    mk cast_info' (Some is_dynamic_group').

(** Cast type and manufacturer are both known: no capability query. *)
Definition metadata_complete (self : t) : bool :=
  negb (bool_decide (CastInfo.cast_type (cast_info self) = None)
        || bool_decide (CastInfo.manufacturer (cast_info self) = None)).

End dial.

(** An audio group whose metadata is complete and whose group status is
    still unknown, and collaborators that answer nothing new. *)
Definition living_room_group : t :=
  mk (CastInfo.mk [] "uuid-g" "Living room" (Some "group")
        (Some "Google Inc."))
     None.

(** A dynamic group that is known to be one. *)
Definition party_group : t :=
  mk (CastInfo.mk [] "uuid-p" "Party" (Some "group") (Some "Google Inc."))
     (Some true).

(** A standard receiver with complete metadata. *)
Definition kitchen_speaker : t :=
  mk (CastInfo.mk [] "uuid-1" "Kitchen" (Some "cast") (Some "Google Inc."))
     None.

Definition fill_offline : t → t :=
  fill_out_missing_chromecast_info "group" unit None
    (λ cast_info _, cast_info) (λ _ _, None).

End ChromecastInfo.

(** ** Status listeners *)

Module CastStatusListener.

(** Objects are named by a number standing for their identity. *)
Abbreviation Ref := nat (only parsing).

(** The logical device handle, a [CastDevice] entity. *)
Record CastDevice := mkDevice {
  device_ref : Ref;
  _cast_info : ChromecastInfo.t
}.

(** The connection object, a [pychromecast.Chromecast]. *)
Record Chromecast := mkChromecast {
  chromecast_ref : Ref;
  chromecast_uuid : UUID
}.

Section listener.

Context {CastStatus MediaStatus ConnectionStatus : Type}.

(** Methods of the multizone manager. *)
Inductive MzCall :=
| add_multizone (chromecast : Chromecast)
| remove_multizone (group_uuid : UUID)
| register_listener (member_uuid : UUID) (listener : Ref)
| deregister_listener (member_uuid : UUID) (listener : Ref).

(** Methods of the logical device handle. *)
Inductive DeviceCall :=
| dev_new_cast_status (cast_status : CastStatus)
| dev_new_media_status (media_status : MediaStatus)
| dev_new_connection_status (connection_status : ConnectionStatus)
| dev_multizone_new_media_status
    (group_uuid : UUID) (media_status : option MediaStatus).

(** Subscriptions offered by the connection. *)
Inductive ChromecastCall :=
| cc_register_status_listener (listener : Ref)
| cc_media_controller_register_status_listener (listener : Ref)
| cc_register_connection_listener (listener : Ref).

(** A call that the listener makes on one of its collaborators. *)
Inductive Call :=
| OnMzMgr (mz_mgr : Ref) (c : MzCall)
| OnChromecast (chromecast : Ref) (c : ChromecastCall)
| OnDevice (cast_device : Ref) (c : DeviceCall).

(** The attributes of a listener; [self] is the identity of the object. *)
Record t := mk {
  self : Ref;
  _cast_device : CastDevice;
  _uuid : UUID;
  _valid : bool;
  _mz_mgr : Ref
}.

Variable CAST_TYPE_GROUP : string.

Definition device_is_audio_group (cast_device : CastDevice) : bool :=
  ChromecastInfo.is_audio_group CAST_TYPE_GROUP (_cast_info cast_device).

(** [__init__]: the new object and the calls made, in order. *)
Definition __init__ (self : Ref) (cast_device : CastDevice)
    (chromecast : Chromecast) (mz_mgr : Ref) (mz_only : bool)
  : t * list Call :=
  let this := mk self cast_device (chromecast_uuid chromecast) true mz_mgr in
  let calls1 :=
    if device_is_audio_group cast_device
    then [OnMzMgr mz_mgr (add_multizone chromecast)] else [] in
  if mz_only then (this, calls1)
  else
    let calls2 :=
      [OnChromecast (chromecast_ref chromecast)
         (cc_register_status_listener self);
       OnChromecast (chromecast_ref chromecast)
         (cc_media_controller_register_status_listener self);
       OnChromecast (chromecast_ref chromecast)
         (cc_register_connection_listener self)] in
    let calls3 :=
      if negb (device_is_audio_group cast_device)
      then [OnMzMgr mz_mgr
              (register_listener (chromecast_uuid chromecast) self)]
      else [] in
    (this, calls1 ++ calls2 ++ calls3).

Definition forward (this : t) (c : DeviceCall) : list Call :=
  [OnDevice (device_ref (_cast_device this)) c].

Definition new_cast_status (this : t) (cast_status : CastStatus) : list Call :=
  if _valid this then forward this (dev_new_cast_status cast_status) else [].

Definition new_media_status (this : t) (media_status : MediaStatus)
  : list Call :=
  if _valid this then forward this (dev_new_media_status media_status) else [].

Definition new_connection_status (this : t)
    (connection_status : ConnectionStatus) : list Call :=
  if _valid this
  then forward this (dev_new_connection_status connection_status) else [].

Definition added_to_multizone (group_uuid : UUID) : list Call := [].

Definition removed_from_multizone (this : t) (group_uuid : UUID) : list Call :=
  if _valid this
  then forward this (dev_multizone_new_media_status group_uuid None) else [].

Definition multizone_new_cast_status (this : t) (group_uuid : UUID)
    (cast_status : CastStatus) : list Call := [].

Definition multizone_new_media_status (this : t) (group_uuid : UUID)
    (media_status : option MediaStatus) : list Call :=
  if _valid this
  then forward this (dev_multizone_new_media_status group_uuid media_status)
  else [].

(** [invalidate]: the object afterwards and the calls made. *)
Definition invalidate (this : t) : t * list Call :=
  let calls :=
    if device_is_audio_group (_cast_device this)
    then [OnMzMgr (_mz_mgr this) (remove_multizone (_uuid this))]
    else [OnMzMgr (_mz_mgr this)
            (deregister_listener (_uuid this) (self this))] in
  (mk (self this) (_cast_device this) (_uuid this) false (_mz_mgr this),
   calls).

(** A callback that a connection or the multizone manager delivers. *)
Inductive Callback :=
| cb_new_cast_status (cast_status : CastStatus)
| cb_new_media_status (media_status : MediaStatus)
| cb_new_connection_status (connection_status : ConnectionStatus)
| cb_added_to_multizone (group_uuid : UUID)
| cb_removed_from_multizone (group_uuid : UUID)
| cb_multizone_new_cast_status (group_uuid : UUID) (cast_status : CastStatus)
| cb_multizone_new_media_status
    (group_uuid : UUID) (media_status : option MediaStatus).

Definition deliver (this : t) (cb : Callback) : list Call :=
  match cb with
  | cb_new_cast_status s => new_cast_status this s
  | cb_new_media_status s => new_media_status this s
  | cb_new_connection_status s => new_connection_status this s
  | cb_added_to_multizone g => added_to_multizone g
  | cb_removed_from_multizone g => removed_from_multizone this g
  | cb_multizone_new_cast_status g s => multizone_new_cast_status this g s
  | cb_multizone_new_media_status g s => multizone_new_media_status this g s
  end.

(** The calls made while a sequence of callbacks is delivered. No handler
    assigns to an attribute, so the object stays as it is. *)
Definition deliver_all (this : t) (cbs : list Callback) : list Call :=
  concat (deliver this <$> cbs).

(** The calls that reach a given logical device handle. *)
Definition device_calls (cast_device : Ref) (calls : list Call)
  : list DeviceCall :=
  omap (λ c, match c with
             | OnDevice d dc => if decide (d = cast_device) then Some dc else None
             | _ => None
             end) calls.

(** The calls that reach a given multizone manager. *)
Definition mz_calls (mz_mgr : Ref) (calls : list Call) : list MzCall :=
  omap (λ c, match c with
             | OnMzMgr m mc => if decide (m = mz_mgr) then Some mc else None
             | _ => None
             end) calls.

(** [undo] takes back the registration [c]. *)
Definition undoes (c undo : MzCall) : bool :=
  match c, undo with
  | add_multizone chromecast, remove_multizone group_uuid =>
      bool_decide (chromecast_uuid chromecast = group_uuid)
  | register_listener u l, deregister_listener u' l' =>
      bool_decide (u = u') && bool_decide (l = l')
  | _, _ => false
  end.

(** The deregistrations take back the registrations, one for one. *)
Definition reverses (registrations deregistrations : list MzCall) : bool :=
  bool_decide (Forall2 (λ c d, undoes c d = true)
                 registrations (reverse deregistrations)).

End listener.

(** A standard receiver, its connection, and the objects around a listener
    built for them in multizone-only mode. *)
Definition kitchen_device : CastDevice :=
  mkDevice 0 ChromecastInfo.kitchen_speaker.

Definition kitchen_chromecast : Chromecast := mkChromecast 1 "uuid-1".

End CastStatusListener.

(** ** Predicates used to state further properties of the M3U parser *)

Module M3uProps.
Import PyStr M3u.

(** A line that changes no loop variable: neither a media URL nor an
    [#EXTINF:] line that stores metadata. *)
Definition passed_over (line0 : string) : bool :=
  negb (is_url line0) && negb (sets_metadata line0).

(** The URL of an item is not empty, is no comment, and has no white space
    around it. *)
Definition url_well_formed (item : PlaylistItem.t) : bool :=
  let url := PlaylistItem.url item in
  negb (startswith url "#") && negb (String.length url =? 0)
  && bool_decide (strip url = url).

(** Length and title of an item are set together; a length that is set is a
    list of one or two strings whose first has no space, and a title that is
    set has no white space around it. *)
Definition metadata_well_formed
    (length : option LengthValue) (title : option string) : bool :=
  match length, title with
  | None, None => true
  | Some (LenList (duration :: extra)), Some t =>
      negb (contains_char " " duration)
      && bool_decide (List.length extra ≤ 1)
      && bool_decide (strip t = t)
  | _, _ => false
  end.

Definition item_metadata_well_formed (item : PlaylistItem.t) : bool :=
  metadata_well_formed (PlaylistItem.length item) (PlaylistItem.title item).

(** A playlist of comments and blank lines only. *)
Definition comments_only_text : string :=
  "#EXTM3U" +:+ newline +:+ newline +:+ "  # no entries  ".

(** A playlist whose URL follows two metadata lines, a comment and a blank
    line. *)
Definition spaced_text : string :=
  "#EXTINF:1,Old" +:+ newline +:+ "#EXTINF:2 x=1, New " +:+ newline
  +:+ "# comment" +:+ newline +:+ newline +:+ " http://a/b ".

(** [spaced_text] without its comment and its blank line. *)
Definition compact_text : string :=
  "#EXTINF:1,Old" +:+ newline +:+ "#EXTINF:2 x=1, New " +:+ newline
  +:+ " http://a/b ".

(** The lines that change a loop variable. *)
Definition effective_lines (lines : list string) : list string :=
  filter (λ l, passed_over l = false) lines.

End M3uProps.

(** ** Predicates used to state further properties of the PLS parser *)

Module PlsProps.
Import ConfigParser Pls.

(** [get] gives a value, it does not raise. *)
Definition is_value (r : result string) : bool :=
  match r with Return _ => true | Raise _ => false end.

(** Every option of the section has a value that interpolates. *)
Definition all_interpolate (playlist_section : SectionProxy) : bool :=
  bool_decide (map_Forall (λ _ r, is_value r = true) playlist_section).

(** What [get] can give for an option: a value or an interpolation error. *)
Definition is_get_outcome (r : result string) : bool :=
  match r with
  | Return _ | Raise InterpolationError => true
  | Raise _ => false
  end.

(** Whatever [read_string] leaves, [get] on an option of the playlist
    section gives a value or an interpolation error. *)
Definition get_outcomes_only (parsed : option Parser) : bool :=
  match parsed with
  | Some pls_parser =>
      match pls_parser !! _PLS_SECTION_PLAYLIST with
      | Some playlist_section =>
          bool_decide (map_Forall (λ _ r, is_get_outcome r = true)
                         playlist_section)
      | None => true
      end
  | None => true
  end.

(** The exceptions that leave [parse_pls] after a fetch that succeeded: its
    own three playlist errors, the [ValueError] of [getint], and an
    interpolation error. *)
Definition may_leave_parse_pls (e : exn) : bool :=
  match e with
  | PlaylistError CantParsePlaylist | PlaylistError InvalidPlaylist
  | PlaylistError InvalidNumberOfEntries | ValueError | InterpolationError =>
      true
  | _ => false
  end.

(** The stored option names that one entry index is looked up under. *)
Definition entry_names (entry : Z) : list string :=
  optionxform <$> [option_name "File" entry; option_name "Length" entry;
                   option_name "Title" entry].

(** The stored option names that [parse_pls] looks up in a playlist of
    [num_entries] entries. *)
Definition looked_up (num_entries : Z) : list string :=
  optionxform "Version" :: optionxform "NumberOfEntries"
  :: (seqZ 1 num_entries ≫= entry_names).

#[global] Instance PlaylistErrorKind_eq_dec : EqDecision PlaylistErrorKind.
Proof. solve_decision. Defined.

#[global] Instance exn_eq_dec : EqDecision exn.
Proof. solve_decision. Defined.

#[global] Instance result_eq_dec `{EqDecision A} : EqDecision (result A).
Proof. solve_decision. Defined.

(** Under every name of the list [get] gives the same in the two sections:
    the same value, the same error, or nothing in both. *)
Definition agree_on (names : list string)
    (playlist_section playlist_section' : SectionProxy) : bool :=
  forallb (λ name, bool_decide (playlist_section !! name
                                = playlist_section' !! name)) names.

(** A literal of [n] zeros. *)
Fixpoint zeros (n : nat) : string :=
  match n with
  | 0 => ""
  | S k => String "0" (zeros k)
  end.

(** Sections of playlists: one whose [Version] is 1, one without
    [NumberOfEntries], one that announces no entry, and the one of
    [two_entries_parser]; a parser holds a section as [[playlist]]. *)
Definition version_one_section : SectionProxy :=
  list_to_map [("version", Return "1");
               ("numberofentries", Return "1");
               ("file1", Return "http://x")].

Definition no_number_section : SectionProxy :=
  list_to_map [("version", Return "2"); ("file1", Return "http://x")].

Definition zero_entries_section : SectionProxy :=
  list_to_map [("version", Return "2");
               ("numberofentries", Return "0");
               ("file1", Return "http://x")].

Definition two_entries_section : SectionProxy :=
  list_to_map [("version", Return "2");
               ("numberofentries", Return "2");
               ("file1", Return "http://x");
               ("title1", Return "Song");
               ("file2", Return "http://y")].

(** [two_entries_section] with a third file and a comment option. *)
Definition three_files_section : SectionProxy :=
  <["file3" := Return "http://z"]>
    (<["comment" := Return "later"]> two_entries_section).

Definition parser_of (playlist_section : SectionProxy) : Parser :=
  {[ _PLS_SECTION_PLAYLIST := playlist_section ]}.

End PlsProps.

(** ** Descriptors and queries used to state properties of the filling *)

Module ChromecastInfoProps.
Import ChromecastInfo.




End ChromecastInfoProps.

(** ** Notions used to state further properties of status listeners *)

Module ListenerProps.
Import CastStatusListener.

Section props.
Context {CastStatus MediaStatus ConnectionStatus : Type}.

(** The call on the logical device handle that a callback stands for, if it
    stands for one. *)
Definition forwarded
    (cb : @Callback CastStatus MediaStatus ConnectionStatus)
  : option (@DeviceCall CastStatus MediaStatus ConnectionStatus) :=
  match cb with
  | cb_new_cast_status s => Some (dev_new_cast_status s)
  | cb_new_media_status s => Some (dev_new_media_status s)
  | cb_new_connection_status s => Some (dev_new_connection_status s)
  | cb_added_to_multizone _ => None
  | cb_removed_from_multizone g => Some (dev_multizone_new_media_status g None)
  | cb_multizone_new_cast_status _ _ => None
  | cb_multizone_new_media_status g s =>
      Some (dev_multizone_new_media_status g s)
  end.

(** The calls that reach a given connection. *)
Definition chromecast_calls (chromecast : nat)
    (calls : list (@Call CastStatus MediaStatus ConnectionStatus))
  : list ChromecastCall :=
  omap (λ c, match c with
             | OnChromecast cc call =>
                 if decide (cc = chromecast) then Some call else None
             | _ => None
             end) calls.

End props.

(** An audio group as a logical device, and its connection. *)
Definition group_device : CastDevice :=
  mkDevice 4 ChromecastInfo.living_room_group.

Definition group_chromecast : Chromecast := mkChromecast 5 "uuid-g".

End ListenerProps.

(** Reduce a sequencing whose first call has been evaluated. *)
Ltac run_bind := cbn [mbind result_bind].

(** ** Facts about the string primitives *)

Module PyStrFacts.
Import PyStr.

Lemma app_cons c s t : String c s +:+ t = String c (s +:+ t).
Proof. reflexivity. Qed.

Lemma app_empty_l t : "" +:+ t = t.
Proof. reflexivity. Qed.

Lemma app_empty_r s : s +:+ "" = s.
Proof. induction s as [|c s IH]; [done|]. by rewrite app_cons, IH. Qed.

Lemma strip_prefix_app p s rest :
  strip_prefix p s = Some rest → s = p +:+ rest.
Proof.
  revert s. induction p as [|a p IH]; intros s; simpl.
  - by intros [= ->].
  - destruct s as [|b s]; [done|].
    destruct (Ascii.eqb a b) eqn:E; [|done].
    apply Ascii.eqb_eq in E as ->. intros H. by rewrite (IH _ H), app_cons.
Qed.

Lemma partition_app sep s a b :
  partition sep s = Some (a, b) → s = a +:+ sep +:+ b.
Proof.
  revert a. induction s as [|c s IH]; intros a; simpl.
  - destruct (strip_prefix sep "") eqn:E; [|done].
    intros [= <- <-]. exact (strip_prefix_app _ _ _ E).
  - destruct (strip_prefix sep (String c s)) eqn:E.
    + intros [= <- <-]. exact (strip_prefix_app _ _ _ E).
    + destruct (partition sep s) as [[a' b']|]; [|done].
      intros [= <- <-]. rewrite app_cons. f_equal. by apply IH.
Qed.

Lemma contains_char_app c s1 s2 :
  contains_char c (s1 +:+ s2) = contains_char c s1 || contains_char c s2.
Proof.
  induction s1 as [|a s1 IH]; [done|].
  rewrite app_cons. simpl. rewrite IH. by rewrite orb_assoc.
Qed.

(** A text without the separator character is not split. *)
Lemma partition_char_absent c s :
  contains_char c s = false → partition (String c "") s = None.
Proof.
  induction s as [|a s IH]; simpl; [done|].
  intros [Hc Hs]%orb_false_elim. rewrite Hc, (IH Hs). done.
Qed.

Lemma string_length_app s t :
  String.length (s +:+ t) = String.length s + String.length t.
Proof.
  induction s as [|c s IH]; [done|]. rewrite app_cons. simpl. by rewrite IH.
Qed.

(** What follows an occurrence of a non-empty separator is shorter than
    the text. *)
Lemma partition_shorter c sep s a b :
  partition (String c sep) s = Some (a, b) → String.length b < String.length s.
Proof.
  intros ->%partition_app. rewrite !string_length_app. simpl. lia.
Qed.

(** The bound that [split] passes to [split_max] cuts no split off: any
    larger bound gives the same pieces. *)
Lemma split_max_enough c sep k1 k2 s :
  String.length s ≤ k1 → String.length s ≤ k2 →
  split_max (String c sep) k1 s = split_max (String c sep) k2 s.
Proof.
  revert k2 s. induction k1 as [|k1 IH]; intros k2 s H1 H2.
  - destruct s; [|simpl in H1; lia]. by destruct k2.
  - destruct k2 as [|k2].
    { destruct s; [done|simpl in H2; lia]. }
    cbn [split_max].
    destruct (partition (String c sep) s) as [[a b]|] eqn:E; [|done].
    apply partition_shorter in E. f_equal. apply IH; lia.
Qed.

Lemma split_unbounded c sep k s :
  String.length s ≤ k →
  split_max (String c sep) k s = split (String c sep) s.
Proof. intros H. unfold split. by apply split_max_enough. Qed.

Example splitlines_boundaries :
  splitlines ("a" +:+ newline +:+ newline +:+ "b" +:+ String CR newline
              +:+ "c" +:+ newline)
  = ["a"; ""; "b"; "c"].
Proof. reflexivity. Qed.

Example splitlines_empty : splitlines "" = [].
Proof. reflexivity. Qed.

Example strip_both_ends : strip ("  a b " +:+ newline) = "a b".
Proof. reflexivity. Qed.

Example split_marker :
  split "#EXTINF:" "#EXTINF:1,a#EXTINF:b" = [""; "1,a"; "b"].
Proof. reflexivity. Qed.

Lemma split_max_nonempty sep k s : split_max sep k s ≠ [].
Proof. destruct k; simpl; [done|]. by destruct (partition sep s) as [[??]|]. Qed.

(** The first piece of a split is a prefix of the text. *)
Lemma split_max_head sep k s :
  ∃ hd tl rest, split_max sep k s = hd :: tl ∧ s = hd +:+ rest.
Proof.
  destruct k; simpl.
  - exists s, [], "". by rewrite app_empty_r.
  - destruct (partition sep s) as [[a b]|] eqn:E.
    + exists a, (split_max sep k b), (sep +:+ b).
      split; [done|]. by apply partition_app.
    + exists s, [], "". by rewrite app_empty_r.
Qed.

(** Indexing the split of a line at its own prefix with [1] succeeds, and
    the piece found lies at the start of the remainder. *)
Lemma split_prefix_second p c s rest :
  strip_prefix (String c p) s = Some rest →
  ∃ seg more, split (String c p) s !! 1%nat = Some seg ∧ rest = seg +:+ more.
Proof.
  intros Hp. unfold split.
  destruct s as [|b s]; [done|]. cbn [String.length split_max].
  assert (partition (String c p) (String b s) = Some ("", rest)) as ->.
  { destruct p; simpl in *; by rewrite Hp. }
  destruct (split_max_head (String c p) (String.length s) rest)
    as (hd & tl & more & -> & ->).
  by exists hd, more.
Qed.

Lemma startswith_hash_extinf s :
  startswith s "#" = false → startswith s "#EXTINF:" = false.
Proof.
  unfold startswith. destruct s as [|c s]; cbn [strip_prefix]; [done|].
  by destruct (Ascii.eqb "#"%char c).
Qed.

End PyStrFacts.

(** ** Facts about the M3U loop *)

Module M3uFacts.
Import PyStr PyStrFacts M3u.

Lemma is_url_not_extinf line0 :
  is_url line0 = true →
  startswith (strip line0) EXTINF = false ∧ startswith (strip line0) "#" = false
  ∧ negb (String.length (strip line0) =? 0) = true.
Proof.
  unfold is_url. cbv zeta. intros [H1 H2]%andb_true_iff.
  apply negb_true_iff in H1. split_and!; [|done..].
  by apply startswith_hash_extinf.
Qed.

(** A media URL line emits an item with the pending fields and clears them. *)
Lemma loop_body_url st line0 :
  is_url line0 = true →
  loop_body st line0 =
    Return (mkLoop None None
              (playlist st ++
                 [PlaylistItem.mk (st_length st) (st_title st) (strip line0)])).
Proof.
  intros (H1 & H2 & H3)%is_url_not_extinf.
  unfold loop_body. cbv zeta. by rewrite H1, H2, H3.
Qed.

(** On an [#EXTINF:] line the index [1] is always there. *)
Lemma extinf_info_defined line0 :
  startswith (strip line0) EXTINF = true → is_Some (extinf_info line0).
Proof.
  intros H. unfold extinf_info. cbv zeta. rewrite H.
  unfold startswith in H. unfold EXTINF in *.
  destruct (strip_prefix _ (strip line0)) as [rest|] eqn:E; [|done].
  destruct (split_prefix_second _ _ _ _ E) as (seg & more & -> & _).
  by eexists.
Qed.

Lemma loop_body_extinf st line0 info :
  extinf_info line0 = Some info →
  loop_body st line0 =
    Return match info with
           | [info0; info1] =>
               mkLoop (Some (LenList (split_max " " 1 info0)))
                      (Some (strip info1)) (playlist st)
           | _ => st
           end.
Proof.
  unfold extinf_info, loop_body. cbv zeta.
  destruct (startswith (strip line0) EXTINF); [|done].
  destruct (split EXTINF (strip line0) !! 1%nat) as [seg|]; [|done].
  simpl. intros [= <-]. by destruct (partition "," seg) as [[??]|].
Qed.

(** Every other line leaves the loop variables as they are. *)
Lemma loop_body_skip st line0 :
  is_url line0 = false → sets_metadata line0 = false →
  loop_body st line0 = Return st.
Proof.
  intros Hu Hm. unfold sets_metadata in Hm.
  destruct (startswith (strip line0) EXTINF) eqn:E.
  - destruct (extinf_info_defined _ E) as [info Hi].
    rewrite (loop_body_extinf _ _ _ Hi). rewrite Hi in Hm.
    by destruct info as [|? [|? [|??]]].
  - unfold loop_body. cbv zeta. rewrite E.
    unfold is_url in Hu. cbv zeta in Hu.
    destruct (startswith (strip line0) "#"); [done|].
    simpl in Hu. by rewrite Hu.
Qed.

Lemma loop_body_total st line0 : ∃ st', loop_body st line0 = Return st'.
Proof.
  destruct (is_url line0) eqn:Hu.
  { eexists. by apply loop_body_url. }
  destruct (sets_metadata line0) eqn:Hm.
  - unfold sets_metadata in Hm.
    destruct (extinf_info line0) as [info|] eqn:Hi; [|done].
    eexists. by apply loop_body_extinf.
  - eexists. by apply loop_body_skip.
Qed.

Lemma loop_cons st line st1 lines :
  loop_body st line = Return st1 → loop st (line :: lines) = loop st1 lines.
Proof. intros H. cbn [loop]. by rewrite H. Qed.

Lemma loop_app st lines1 lines2 :
  loop st (lines1 ++ lines2) = (st' ← loop st lines1; loop st' lines2).
Proof.
  revert st. induction lines1 as [|l lines1 IH]; intros st; [done|].
  simpl. destruct (loop_body st l) as [e|st']; [done|]. apply IH.
Qed.

(** The loop never raises; it appends one item per media URL line, in the
    order of the lines. *)
Lemma loop_total st lines :
  ∃ st' items,
    loop st lines = Return st' ∧ playlist st' = playlist st ++ items
    ∧ PlaylistItem.url <$> items = strip <$> filter is_url lines.
Proof.
  revert st. induction lines as [|l lines IH]; intros st.
  { exists st, []. by rewrite app_nil_r. }
  destruct (is_url l) eqn:Hu.
  - rewrite (loop_cons _ _ _ _ (loop_body_url st _ Hu)).
    destruct (IH (mkLoop None None
                    (playlist st ++
                       [PlaylistItem.mk (st_length st) (st_title st) (strip l)])))
      as (st' & items & -> & Hp & Hm).
    exists st', (PlaylistItem.mk (st_length st) (st_title st) (strip l) :: items).
    split_and!; [done| |].
    + rewrite Hp. simpl. by rewrite <- app_assoc.
    + rewrite filter_cons_True by (rewrite Hu; exact I).
      rewrite !fmap_cons, Hm. done.
  - assert (∃ st1, loop_body st l = Return st1 ∧ playlist st1 = playlist st)
      as (st1 & H1 & Hp1).
    { destruct (sets_metadata l) eqn:Hm.
      - unfold sets_metadata in Hm.
        destruct (extinf_info l) as [info|] eqn:Hi; [|done].
        rewrite (loop_body_extinf _ _ _ Hi).
        destruct info as [|? [|? [|??]]]; (eexists; split; [reflexivity|done]).
      - rewrite (loop_body_skip _ _ Hu Hm). by exists st. }
    rewrite (loop_cons _ _ _ _ H1).
    destruct (IH st1) as (st' & items & -> & Hp & Hm).
    exists st', items. split_and!; [done|by rewrite Hp, Hp1|].
    rewrite filter_cons_False by (rewrite Hu; exact id). done.
Qed.

Lemma loop_keeps_clear st lines st' :
  pending_clear st →
  forallb (λ l, negb (sets_metadata l)) lines = true →
  loop st lines = Return st' → pending_clear st'.
Proof.
  revert st. induction lines as [|l lines IH]; intros st Hc Hall.
  { by intros [= <-]. }
  simpl in Hall. apply andb_true_iff in Hall as [Hm%negb_true_iff Hall].
  destruct (is_url l) eqn:Hu.
  - rewrite (loop_cons _ _ _ _ (loop_body_url st _ Hu)). by apply IH.
  - rewrite (loop_cons _ _ _ _ (loop_body_skip st _ Hu Hm)). by apply IH.
Qed.

Lemma loop_clear_after_url st lines u st' :
  is_url u = true → loop st (lines ++ [u]) = Return st' → pending_clear st'.
Proof.
  intros Hu. rewrite loop_app.
  destruct (loop st lines) as [e|st1]; [done|].
  run_bind.
  rewrite (loop_cons _ _ _ _ (loop_body_url st1 _ Hu)). by intros [= <-].
Qed.

Lemma loop_body_invalid_extinf st line0 :
  invalid_extinf line0 = true → loop_body st line0 = Return st.
Proof.
  unfold invalid_extinf, extinf_rest, EXTINF.
  destruct (strip_prefix _ (strip line0)) as [rest|] eqn:E; [|done].
  intros Hc%negb_true_iff.
  destruct (split_prefix_second _ _ _ _ E) as (seg & more & Hseg & ->).
  rewrite contains_char_app in Hc. apply orb_false_elim in Hc as [Hc _].
  rewrite (loop_body_extinf st line0 [seg]); [done|].
  unfold extinf_info, startswith, EXTINF. cbv zeta. rewrite E, Hseg.
  cbn [mbind option_bind split_max]. by rewrite (partition_char_absent _ _ Hc).
Qed.

Lemma loop_invalid_extinf st lines :
  forallb invalid_extinf lines = true → loop st lines = Return st.
Proof.
  induction lines as [|l lines IH]; [done|].
  intros [Hl Hall]%andb_true_iff.
  rewrite (loop_cons _ _ _ _ (loop_body_invalid_extinf st _ Hl)). by apply IH.
Qed.

Lemma items_length (items : list PlaylistItem.t) (lines : list string) :
  PlaylistItem.url <$> items = strip <$> filter is_url lines →
  length items = length (filter is_url lines).
Proof. intros H. apply (f_equal length) in H. by rewrite !length_fmap in H. Qed.

Lemma parse_m3u_lines m3u_data line lines :
  splitlines m3u_data = line :: lines →
  parse_m3u (Return m3u_data) =
    (st ← loop init (line :: lines); Return (playlist st)).
Proof. intros H. unfold parse_m3u. run_bind. by rewrite H. Qed.

(** C2 (the code departs from the claim): on the text
    ["#EXTINF:123 extra,My Title\nhttp://a/b"] the parser returns one item
    with the title and the URL of the claim, but its length is the list
    [["123"; "extra"]] that [info[0].split(" ", 1)] returns, not the string
    ["123"]. *)
Theorem parse_m3u_extinf_length_is_list :
  parse_m3u
    (Return ("#EXTINF:123 extra,My Title" +:+ newline +:+ "http://a/b")) =
  Return [PlaylistItem.mk (Some (LenList ["123"; "extra"]))
            (Some "My Title") "http://a/b"].
Proof. vm_compute. reflexivity. Qed.

(** C7: once the fetch has succeeded, [parse_m3u] raises the empty-playlist
    error exactly when the text splits into no line; on every other text it
    returns a playlist and raises nothing, and the URLs of the playlist are
    the media URL lines of the text, stripped, in their order. *)
Theorem parse_m3u_raises_iff_no_lines (m3u_data : string) :
  (parse_m3u (Return m3u_data) = Raise (PlaylistError EmptyPlaylist)
   ↔ splitlines m3u_data = [])
  ∧ (splitlines m3u_data = []
     ∨ ∃ playlist,
         parse_m3u (Return m3u_data) = Return playlist
         ∧ PlaylistItem.url <$> playlist
           = strip <$> filter is_url (splitlines m3u_data)).
Proof.
  destruct (splitlines m3u_data) as [|line lines] eqn:E.
  - split; [|by left]. unfold parse_m3u. run_bind.
    by rewrite E.
  - rewrite (parse_m3u_lines _ _ _ E).
    destruct (loop_total init (line :: lines)) as (st & items & -> & Hp & Hu).
    run_bind. split; [done|].
    right. exists (playlist st). split; [done|]. by rewrite Hp.
Qed.

(** C8: a media URL line emits an item that carries the pending length and
    title and clears both; hence a URL line [u] that follows the start of
    the text or an earlier URL line, with no line in between that stores
    metadata, yields an item with no length and no title. *)
Theorem parse_m3u_metadata_used_once
    (st : LoopState) (m3u_data : string) (pre mid post : list string)
    (u : string) :
  splitlines m3u_data = pre ++ mid ++ u :: post →
  from_option is_url true (last pre) = true →
  forallb (λ l, negb (sets_metadata l)) mid = true →
  is_url u = true →
  loop_body st u =
    Return (mkLoop None None
              (playlist st ++
                 [PlaylistItem.mk (st_length st) (st_title st) (strip u)]))
  ∧ ∃ before after,
      parse_m3u (Return m3u_data) =
        Return (before ++ PlaylistItem.mk None None (strip u) :: after)
      ∧ length before = length (filter is_url (pre ++ mid)).
Proof.
  intros Hlines Hpre Hmid Hu. split; [by apply loop_body_url|].
  destruct (pre ++ mid ++ u :: post) as [|line lines] eqn:E.
  { apply (f_equal length) in E. rewrite !length_app in E. simpl in E. lia. }
  rewrite (parse_m3u_lines _ _ _ Hlines), <- E, loop_app.
  destruct (loop_total init pre) as (st1 & items1 & H1 & Hp1 & Hu1).
  assert (pending_clear st1) as Hc1.
  { destruct pre as [|u1 pre' _] using rev_ind.
    - injection H1 as <-. done.
    - rewrite last_snoc in Hpre. exact (loop_clear_after_url _ _ _ _ Hpre H1). }
  rewrite H1. run_bind. rewrite loop_app.
  destruct (loop_total st1 mid) as (st2 & items2 & H2 & Hp2 & Hu2).
  pose proof (loop_keeps_clear _ _ _ Hc1 Hmid H2) as [Hl2 Ht2].
  rewrite H2. run_bind.
  rewrite (loop_cons _ _ _ _ (loop_body_url st2 _ Hu)), Hl2, Ht2.
  match goal with |- context [loop ?s post] =>
    destruct (loop_total s post) as (st4 & items4 & -> & Hp4 & _) end.
  cbn [mbind result_bind playlist] in *.
  exists (items1 ++ items2), items4. split.
  - rewrite Hp4, Hp2, Hp1. simpl. by rewrite <- !app_assoc.
  - rewrite filter_app, !length_app.
    by rewrite (items_length _ _ Hu1), (items_length _ _ Hu2).
Qed.

(** C10: an [#EXTINF:] line with no comma after the marker leaves the
    pending length and title as they are; hence the metadata of a valid
    [#EXTINF:] line [e] goes to the next URL line [u] also when such
    invalid lines stand between the two. *)
Theorem parse_m3u_invalid_extinf_keeps_metadata
    (st : LoopState) (m3u_data : string) (pre bads post : list string)
    (e bad u info0 info1 : string) :
  splitlines m3u_data = pre ++ e :: (bad :: bads) ++ u :: post →
  extinf_info e = Some [info0; info1] →
  forallb invalid_extinf (bad :: bads) = true →
  is_url u = true →
  loop_body st bad = Return st
  ∧ ∃ before after,
      parse_m3u (Return m3u_data) =
        Return (before ++
                PlaylistItem.mk (Some (LenList (split_max " " 1 info0)))
                  (Some (strip info1)) (strip u) :: after)
      ∧ length before = length (filter is_url pre).
Proof.
  intros Hlines He Hbads Hu. split.
  { apply loop_body_invalid_extinf.
    by apply andb_true_iff in Hbads as [? _]. }
  destruct (pre ++ e :: (bad :: bads) ++ u :: post) as [|line lines] eqn:E.
  { apply (f_equal length) in E. rewrite !length_app in E. simpl in E. lia. }
  rewrite (parse_m3u_lines _ _ _ Hlines), <- E, loop_app.
  destruct (loop_total init pre) as (st1 & items1 & -> & Hp1 & Hu1).
  run_bind.
  rewrite (loop_cons _ _ _ _ (loop_body_extinf st1 _ _ He)), loop_app.
  rewrite (loop_invalid_extinf _ _ Hbads). run_bind.
  rewrite (loop_cons _ _ _ _ (loop_body_url _ _ Hu)).
  match goal with |- context [loop ?s post] =>
    destruct (loop_total s post) as (st4 & items4 & -> & Hp4 & _) end.
  cbn [mbind result_bind playlist st_length st_title] in *.
  exists items1, items4. split.
  - rewrite Hp4, Hp1. simpl. by rewrite <- !app_assoc.
  - by apply items_length.
Qed.

Lemma parse_m3u_metadata_used_once_witness :
  splitlines two_urls_text
  = ["#EXTINF:1,T"; "http://a"] ++ ["# comment"] ++ "http://b" :: []
  ∧ from_option is_url true (last ["#EXTINF:1,T"; "http://a"]) = true
  ∧ forallb (λ l, negb (sets_metadata l)) ["# comment"] = true
  ∧ is_url "http://b" = true
  ∧ loop_body init "http://b"
    = Return (mkLoop None None
                (playlist init ++
                   [PlaylistItem.mk (st_length init) (st_title init)
                      (strip "http://b")]))
  ∧ ∃ before after,
      parse_m3u (Return two_urls_text)
      = Return (before ++ PlaylistItem.mk None None (strip "http://b") :: after)
      ∧ length before
        = length (filter is_url (["#EXTINF:1,T"; "http://a"] ++ ["# comment"])).
Proof.
  split_and!; [vm_compute; reflexivity..| |];
    apply (parse_m3u_metadata_used_once init two_urls_text
             ["#EXTINF:1,T"; "http://a"] ["# comment"] [] "http://b");
    vm_compute; reflexivity.
Defined.

Lemma parse_m3u_invalid_extinf_keeps_metadata_witness :
  splitlines invalid_extinf_text
  = [] ++ "#EXTINF:-1,T" :: ("#EXTINF:bad" :: []) ++ "http://a/b" :: []
  ∧ extinf_info "#EXTINF:-1,T" = Some ["-1"; "T"]
  ∧ forallb invalid_extinf ["#EXTINF:bad"] = true
  ∧ is_url "http://a/b" = true
  ∧ loop_body init "#EXTINF:bad" = Return init
  ∧ ∃ before after,
      parse_m3u (Return invalid_extinf_text)
      = Return (before ++
                PlaylistItem.mk (Some (LenList (split_max " " 1 "-1")))
                  (Some (strip "T")) (strip "http://a/b") :: after)
      ∧ length before = length (filter is_url []).
Proof.
  split_and!; [vm_compute; reflexivity..| |];
    apply (parse_m3u_invalid_extinf_keeps_metadata init invalid_extinf_text
             [] [] [] "#EXTINF:-1,T" "#EXTINF:bad" "http://a/b" "-1" "T");
    vm_compute; reflexivity.
Defined.

End M3uFacts.

(** ** Facts about the PLS parser *)

Module PlsFacts.
Import ConfigParser Pls.

Lemma loop_body_entry playlist_section playlist entry :
  interpolates playlist_section →
  loop_body playlist_section playlist entry =
    Return (playlist ++ option_list (entry_item playlist_section entry)).
Proof.
  intros Hi. unfold loop_body, entry_item, value, has_option, proxy_get,
    proxy_getitem. cbv zeta.
  destruct (playlist_section !! optionxform (option_name "File" entry))
    as [r|] eqn:Ef; rewrite ?Ef.
  2: { rewrite bool_decide_eq_false_2 by by intros [??].
       simpl. by rewrite app_nil_r. }
  rewrite bool_decide_eq_true_2 by by eexists.
  destruct (Hi _ _ Ef) as [url ->]. cbn [negb].
  destruct (playlist_section !! optionxform (option_name "Length" entry))
    as [rl|] eqn:El;
    [destruct (Hi _ _ El) as [vl ->]|];
    (destruct (playlist_section !! optionxform (option_name "Title" entry))
      as [rt|] eqn:Et; [destruct (Hi _ _ Et) as [vt ->]|]); done.
Qed.

Lemma loop_entries playlist_section playlist entries :
  interpolates playlist_section →
  loop playlist_section playlist entries =
    Return (playlist ++ omap (entry_item playlist_section) entries).
Proof.
  intros Hi. revert playlist.
  induction entries as [|entry entries IH]; intros playlist.
  { by rewrite app_nil_r. }
  cbn [loop]. rewrite (loop_body_entry _ _ _ Hi). run_bind.
  rewrite IH. cbn [omap list_omap].
  destruct (entry_item playlist_section entry); simpl.
  - by rewrite <- app_assoc.
  - by rewrite app_nil_r.
Qed.

Section parse_pls.
Variable read_string : string → option Parser.
Variable pls_data : string.

Lemma parse_pls_cant_parse :
  read_string pls_data = None →
  parse_pls read_string (Return pls_data)
  = Raise (PlaylistError CantParsePlaylist).
Proof. intros H. unfold parse_pls. run_bind. by rewrite H. Qed.

(** No [[playlist]] section: invalid playlist. *)
Lemma parse_pls_no_section pls_parser :
  read_string pls_data = Some pls_parser →
  pls_parser !! _PLS_SECTION_PLAYLIST = None →
  parse_pls read_string (Return pls_data)
  = Raise (PlaylistError InvalidPlaylist).
Proof.
  intros H1 H2. unfold parse_pls. run_bind. by rewrite H1, H2.
Qed.

(** [Version] absent, or an integer other than 2: invalid playlist. *)
Lemma parse_pls_wrong_version pls_parser playlist_section version :
  read_string pls_data = Some pls_parser →
  pls_parser !! _PLS_SECTION_PLAYLIST = Some playlist_section →
  proxy_getint playlist_section "Version" = Return version →
  version ≠ Some 2%Z →
  parse_pls read_string (Return pls_data)
  = Raise (PlaylistError InvalidPlaylist).
Proof.
  intros H1 H2 H3 H4. unfold parse_pls. run_bind.
  rewrite H1, H2, H3. run_bind.
  by rewrite bool_decide_eq_false_2.
Qed.

(** [Version] present but no integer: the [ValueError] of [getint] leaves
    [parse_pls] as it is, no [PlaylistError] replaces it. *)
Lemma parse_pls_version_not_int pls_parser playlist_section v :
  read_string pls_data = Some pls_parser →
  pls_parser !! _PLS_SECTION_PLAYLIST = Some playlist_section →
  playlist_section !! optionxform "Version" = Some (Return v) →
  py_int v = Raise ValueError →
  parse_pls read_string (Return pls_data) = Raise ValueError.
Proof.
  intros H1 H2 H3 H4. unfold parse_pls, proxy_getint.
  run_bind. rewrite H1, H2, H3.
  run_bind. by rewrite H4.
Qed.

(** [NumberOfEntries] absent or no integer: invalid NumberOfEntries. *)
Lemma parse_pls_bad_number_of_entries pls_parser playlist_section :
  read_string pls_data = Some pls_parser →
  pls_parser !! _PLS_SECTION_PLAYLIST = Some playlist_section →
  proxy_getint playlist_section "Version" = Return (Some 2%Z) →
  playlist_section !! optionxform "NumberOfEntries" = None
  ∨ (∃ v, playlist_section !! optionxform "NumberOfEntries" = Some (Return v)
          ∧ py_int v = Raise ValueError) →
  parse_pls read_string (Return pls_data)
  = Raise (PlaylistError InvalidNumberOfEntries).
Proof.
  intros H1 H2 H3 H4. unfold parse_pls. run_bind.
  rewrite H1, H2, H3. run_bind.
  rewrite bool_decide_eq_true_2 by done. cbn [negb].
  unfold parser_getint.
  destruct H4 as [->|(v & -> & Hv)]; [done|].
  run_bind. by rewrite Hv.
Qed.

(** Otherwise: one item per index of [1 .. NumberOfEntries] that has a
    [File] option, in ascending order. *)
Lemma parse_pls_entries pls_parser playlist_section num_entries :
  read_string pls_data = Some pls_parser →
  pls_parser !! _PLS_SECTION_PLAYLIST = Some playlist_section →
  interpolates playlist_section →
  proxy_getint playlist_section "Version" = Return (Some 2%Z) →
  parser_getint playlist_section "NumberOfEntries" = Return num_entries →
  parse_pls read_string (Return pls_data)
  = Return (omap (entry_item playlist_section) (seqZ 1 num_entries)).
Proof.
  intros H1 H2 Hi H3 H4. unfold parse_pls. run_bind.
  rewrite H1, H2, H3. run_bind.
  rewrite bool_decide_eq_true_2 by done. cbn [negb].
  rewrite H4. by rewrite (loop_entries _ _ _ Hi).
Qed.

End parse_pls.

Example py_int_accepts :
  py_int " +1_0 " = Return 10%Z ∧ py_int "-02" = Return (-2)%Z.
Proof. split; reflexivity. Qed.

Example py_int_rejects :
  py_int "abc" = Raise ValueError ∧ py_int "1__0" = Raise ValueError
  ∧ py_int "" = Raise ValueError ∧ py_int "+ 1" = Raise ValueError.
Proof. split_and!; reflexivity. Qed.

(** An interpolation error of [get] is not wrapped either. *)
Example parse_pls_percent_url :
  parse_pls (λ _, Some percent_url_parser) (Return "")
  = Raise InterpolationError.
Proof. vm_compute. reflexivity. Qed.

Example parse_pls_two_entries :
  parse_pls (λ _, Some two_entries_parser) (Return "") =
  Return [PlaylistItem.mk None (Some "Song") "http://x";
          PlaylistItem.mk None None "http://y"].
Proof. vm_compute. reflexivity. Qed.

(** C9 (the code departs from the claim): for the playlist text
    [[playlist] / Version=abc / NumberOfEntries=1 / File1=http://x] the
    version is not 2, and [parse_pls] raises the [ValueError] of [getint]
    instead of the invalid-playlist error. *)
Theorem parse_pls_version_abc_raises_value_error :
  parse_pls (λ _, Some version_abc_parser) (Return version_abc_text)
  = Raise ValueError.
Proof. vm_compute. reflexivity. Qed.

End PlsFacts.

(** ** Facts about device descriptors *)

Module ChromecastInfoFacts.
Import ChromecastInfo.

Section dial.
Variable CAST_TYPE_GROUP : string.
Variable Zeroconf : Type.
Variable zconf : option Zeroconf.
Variable get_cast_type : CastInfo.t → option Zeroconf → CastInfo.t.
Variable get_multizone_status :
  list string → option Zeroconf → option MultizoneStatus.t.

Abbreviation is_group := (is_audio_group CAST_TYPE_GROUP).
Abbreviation fill :=
  (fill_out_missing_chromecast_info CAST_TYPE_GROUP Zeroconf zconf
     get_cast_type get_multizone_status).


(** The early return builds [ChromecastInfo(cast_info=cast_info)]. *)
Lemma fill_early_return self :
  negb (is_group self) || negb (bool_decide (is_dynamic_group self = None))
  = true →
  fill self = mk (cast_info (fill self)) None.
Proof.
  intros H. unfold fill_out_missing_chromecast_info. cbv zeta. by rewrite H.
Qed.

(** C5: for a descriptor that is not an audio group the result has
    [is_dynamic_group = None]. *)
Theorem fill_non_group_is_dynamic_group_none (self : t) :
  is_group self = false → is_dynamic_group (fill self) = None.
Proof.
  intros H. rewrite fill_early_return; [done|]. by rewrite H.
Qed.

(** C4 (the code departs from the claim): a descriptor whose
    [is_dynamic_group] is known, [Some b], takes the early return, and the
    result has [is_dynamic_group = None]: the field is not kept. *)
Theorem fill_forgets_known_is_dynamic_group
    (cast_info : CastInfo.t) (b : bool) :
  is_dynamic_group (fill (mk cast_info (Some b))) = None.
Proof.
  rewrite fill_early_return; [done|].
  cbn [is_dynamic_group]. rewrite bool_decide_eq_false_2 by done.
  by rewrite orb_true_r.
Qed.


End dial.

Example fill_party_group :
  fill_offline party_group = mk (cast_info party_group) None.
Proof. reflexivity. Qed.


Lemma fill_non_group_witness :
  is_audio_group "group" kitchen_speaker = false
  ∧ is_dynamic_group (fill_offline kitchen_speaker) = None.
Proof.
  split; [reflexivity|].
  apply (fill_non_group_is_dynamic_group_none "group" unit None
           (λ cast_info _, cast_info) (λ _ _, None) kitchen_speaker).
  reflexivity.
Defined.


End ChromecastInfoFacts.

(** ** Facts about status listeners *)

Module CastStatusListenerFacts.
Import CastStatusListener.

Section listener.
Context {CastStatus MediaStatus ConnectionStatus : Type}.
Variable CAST_TYPE_GROUP : string.

Abbreviation Listener := CastStatusListener.t.
Abbreviation Callback := (@Callback CastStatus MediaStatus ConnectionStatus).
Abbreviation Call := (@Call CastStatus MediaStatus ConnectionStatus).

Lemma invalidate_valid (this : Listener) :
  _valid (@invalidate CastStatus MediaStatus ConnectionStatus
            CAST_TYPE_GROUP this).1 = false.
Proof. done. Qed.

(** A listener that is not valid makes no call, whatever the callback. *)
Lemma deliver_invalid (this : Listener) (cb : Callback) :
  _valid this = false → deliver this cb = [].
Proof.
  intros H. destruct cb; simpl; try done;
    unfold new_cast_status, new_media_status, new_connection_status,
      removed_from_multizone, multizone_new_media_status; by rewrite H.
Qed.

Lemma deliver_all_invalid (this : Listener) (cbs : list Callback) :
  _valid this = false → deliver_all this cbs = [].
Proof.
  intros H. unfold deliver_all.
  induction cbs as [|cb cbs IH]; [done|].
  rewrite fmap_cons. cbn [concat]. by rewrite (deliver_invalid _ _ H), IH.
Qed.

(** A fresh listener forwards: the flag is what stops the calls. *)
Lemma deliver_fresh self cast_device chromecast mz_mgr mz_only
    (cast_status : CastStatus) :
  deliver (@__init__ CastStatus MediaStatus ConnectionStatus CAST_TYPE_GROUP
             self cast_device chromecast mz_mgr mz_only).1
    (cb_new_cast_status cast_status : Callback)
  = [OnDevice (device_ref cast_device) (dev_new_cast_status cast_status)].
Proof. by destruct mz_only. Qed.

(** C1: after [invalidate], whatever callbacks are delivered and in whatever
    order, the listener makes no call on any logical device handle. *)
Theorem invalidate_stops_forwarding
    (this : Listener) (cbs : list Callback) (cast_device : nat) :
  device_calls cast_device
    (deliver_all (@invalidate CastStatus MediaStatus ConnectionStatus
                    CAST_TYPE_GROUP this).1 cbs)
  = [].
Proof. by rewrite deliver_all_invalid. Qed.

(** Where a registration is made at construction, [invalidate] takes it
    back: an audio group in either mode, a standard receiver in full mode. *)
Lemma invalidate_reverses_init self cast_device chromecast mz_mgr mz_only :
  device_is_audio_group CAST_TYPE_GROUP cast_device || negb mz_only = true →
  let '(this, calls) :=
    @__init__ CastStatus MediaStatus ConnectionStatus CAST_TYPE_GROUP
      self cast_device chromecast mz_mgr mz_only in
  reverses (mz_calls mz_mgr calls)
    (mz_calls mz_mgr
       (@invalidate CastStatus MediaStatus ConnectionStatus
          CAST_TYPE_GROUP this).2)
  = true.
Proof.
  unfold __init__, invalidate, reverses. cbv zeta.
  destruct (device_is_audio_group CAST_TYPE_GROUP cast_device) eqn:Hg,
    mz_only; try done; intros _;
    cbn [_cast_device _uuid _mz_mgr CastStatusListener.self fst snd];
    rewrite Hg; cbn; rewrite !decide_True by done;
    apply bool_decide_eq_true_2; repeat constructor;
    cbn; rewrite ?bool_decide_eq_true_2 by done; done.
Qed.

End listener.

(** C6 (the code departs from the claim): a listener built for a standard
    receiver in multizone-only mode registers nothing with the multizone
    manager, and its [invalidate] still calls [deregister_listener]: the
    call takes back no registration of the constructor. *)
Theorem invalidate_deregisters_unregistered_listener :
  let '(this, calls) :=
    @__init__ unit unit unit "group" 3 kitchen_device kitchen_chromecast 2
      true in
  mz_calls 2 calls = []
  ∧ mz_calls 2 (@invalidate unit unit unit "group" this).2
    = [deregister_listener "uuid-1" 3]
  ∧ reverses (mz_calls 2 calls)
      (mz_calls 2 (@invalidate unit unit unit "group" this).2)
    = false.
Proof. vm_compute. done. Qed.

End CastStatusListenerFacts.

(** ** Further facts about the string primitives *)

Module PyStrMore.
Import PyStr PyStrFacts.

Lemma rev_app_app s t : String.rev_app s t = String.rev s +:+ t.
Proof.
  unfold String.rev. revert t. induction s as [|c s IH]; intros t; [done|].
  cbn [String.rev_app]. rewrite (IH (String c t)), (IH (String c "")).
  clear IH. induction (String.rev_app s "") as [|a r IHr]; [done|].
  rewrite !app_cons. by f_equal.
Qed.

Lemma rev_cons c s : String.rev (String c s) = String.rev s +:+ String c "".
Proof. unfold String.rev at 1. cbn [String.rev_app]. apply rev_app_app. Qed.

Lemma string_app_assoc s t u : (s +:+ t) +:+ u = s +:+ (t +:+ u).
Proof. induction s as [|c s IH]; [done|]. by rewrite !app_cons, IH. Qed.

Lemma rev_app_distr s t : String.rev (s +:+ t) = String.rev t +:+ String.rev s.
Proof.
  induction s as [|c s IH]; [by rewrite app_empty_l, app_empty_r|].
  by rewrite app_cons, !rev_cons, IH, string_app_assoc.
Qed.

Lemma rev_involutive s : String.rev (String.rev s) = s.
Proof.
  induction s as [|c s IH]; [done|].
  by rewrite rev_cons, rev_app_distr, IH.
Qed.

Lemma lstrip_idem s : lstrip (lstrip s) = lstrip s.
Proof.
  induction s as [|c s IH]; [done|]. simpl.
  destruct (is_space c) eqn:E; [done|]. simpl. by rewrite E.
Qed.

Lemma lstrip_length s : String.length (lstrip s) ≤ String.length s.
Proof.
  induction s as [|c s IH]; [done|]. simpl.
  destruct (is_space c); simpl; lia.
Qed.

Lemma lstrip_app s t :
  lstrip (s +:+ t) = match lstrip s with "" => lstrip t | r => r +:+ t end.
Proof.
  induction s as [|c s IH]; [done|]. rewrite app_cons. simpl.
  destruct (is_space c); [done|]. by rewrite app_cons.
Qed.

(** [rstrip] by recursion from the left. *)
Lemma rstrip_cons c s :
  rstrip (String c s) =
    match rstrip s with
    | "" => if is_space c then "" else String c ""
    | r => String c r
    end.
Proof.
  unfold rstrip. rewrite rev_cons, lstrip_app.
  destruct (lstrip (String.rev s)) as [|a r] eqn:E.
  - simpl. by destruct (is_space c).
  - rewrite rev_app_distr. change (String.rev (String c "")) with (String c "").
    rewrite app_cons, app_empty_l.
    destruct (String.rev (String a r)) eqn:E2; [|done].
    apply (f_equal String.rev) in E2. rewrite rev_involutive in E2. done.
Qed.

Lemma rstrip_idem s : rstrip (rstrip s) = rstrip s.
Proof. unfold rstrip. by rewrite rev_involutive, lstrip_idem. Qed.

(** Stripping the right end keeps a left end that is already stripped. *)
Lemma lstrip_rstrip s : lstrip s = s → lstrip (rstrip s) = rstrip s.
Proof.
  destruct s as [|c s]; [done|]. simpl.
  destruct (is_space c) eqn:E.
  - intros H. apply (f_equal String.length) in H.
    pose proof (lstrip_length s). simpl in H. lia.
  - intros _. rewrite rstrip_cons.
    destruct (rstrip s); rewrite ?E; cbn [lstrip]; by rewrite ?E.
Qed.

(** [strip] is idempotent. *)
Lemma strip_idem s : strip (strip s) = strip s.
Proof.
  unfold strip. rewrite (lstrip_rstrip (lstrip s)) by apply lstrip_idem.
  apply rstrip_idem.
Qed.

(** The text before the leftmost separator holds no separator. *)
Lemma partition_char_leftmost c s a b :
  partition (String c "") s = Some (a, b) → contains_char c a = false.
Proof.
  revert a. induction s as [|x s IH]; intros a; [done|].
  cbn [partition strip_prefix]. destruct (Ascii.eqb c x) eqn:E.
  - by intros [= <- <-].
  - destruct (partition (String c "") s) as [[a' b']|]; [|done].
    intros [= <- <-]. simpl. rewrite E. by apply IH.
Qed.

Lemma partition_char_none c s :
  partition (String c "") s = None → contains_char c s = false.
Proof.
  induction s as [|x s IH]; [done|].
  cbn [partition strip_prefix]. destruct (Ascii.eqb c x) eqn:E; [done|].
  destruct (partition (String c "") s) as [[a' b']|]; [done|].
  intros _. simpl. rewrite E. by apply IH.
Qed.

End PyStrMore.

(** ** Further properties of the M3U parser *)

Module M3uExtra.
Import PyStr PyStrFacts PyStrMore M3u M3uFacts M3uProps.

Lemma loop_passed_over st lines :
  forallb passed_over lines = true → loop st lines = Return st.
Proof.
  induction lines as [|l lines IH]; [done|].
  intros [[Hu%negb_true_iff Hm%negb_true_iff]%andb_true_iff Hall]%andb_true_iff.
  rewrite (loop_cons _ _ _ _ (loop_body_skip st _ Hu Hm)). by apply IH.
Qed.

Lemma sets_metadata_info line0 :
  sets_metadata line0 = true → ∃ info0 info1, extinf_info line0 = Some [info0; info1].
Proof.
  unfold sets_metadata.
  destruct (extinf_info line0) as [[|i0 [|i1 [|??]]]|]; try done.
  by exists i0, i1.
Qed.

(** What the parser returns on a text that has lines. *)
Lemma parse_m3u_returns m3u_data playlist :
  parse_m3u (Return m3u_data) = Return playlist →
  ∃ st, loop init (splitlines m3u_data) = Return st ∧ M3u.playlist st = playlist.
Proof.
  unfold parse_m3u. run_bind. cbv zeta.
  destruct (splitlines m3u_data) as [|line lines]; [done|].
  destruct (loop init (line :: lines)) as [e|st]; [done|].
  run_bind. intros [= <-]. by exists st.
Qed.

(** X1: the metadata of the nearest valid [#EXTINF:] line before a URL line goes
    to the item of that URL, whatever comments, blank lines and invalid
    [#EXTINF:] lines stand between the two and whatever comes before. *)
Theorem parse_m3u_nearest_extinf
    (m3u_data : string) (pre mid post : list string)
    (e u info0 info1 : string) :
  splitlines m3u_data = pre ++ e :: mid ++ u :: post →
  extinf_info e = Some [info0; info1] →
  forallb passed_over mid = true →
  is_url u = true →
  ∃ before after,
    parse_m3u (Return m3u_data) =
      Return (before ++
              PlaylistItem.mk (Some (LenList (split_max " " 1 info0)))
                (Some (strip info1)) (strip u) :: after)
    ∧ length before = length (filter is_url pre).
Proof.
  intros Hlines He Hmid Hu.
  destruct (pre ++ e :: mid ++ u :: post) as [|line lines] eqn:E.
  { apply (f_equal length) in E. rewrite !length_app in E. simpl in E.
    rewrite length_app in E. simpl in E. lia. }
  rewrite (parse_m3u_lines _ _ _ Hlines), <- E, loop_app.
  destruct (loop_total init pre) as (st1 & items1 & -> & Hp1 & Hu1).
  run_bind.
  rewrite (loop_cons _ _ _ _ (loop_body_extinf st1 _ _ He)), loop_app.
  rewrite (loop_passed_over _ _ Hmid). run_bind.
  rewrite (loop_cons _ _ _ _ (loop_body_url _ _ Hu)).
  match goal with |- context [loop ?s post] =>
    destruct (loop_total s post) as (st4 & items4 & -> & Hp4 & _) end.
  cbn [mbind result_bind playlist st_length st_title] in *.
  exists items1, items4. split.
  - rewrite Hp4, Hp1. simpl. by rewrite <- !app_assoc.
  - by apply items_length.
Qed.

Lemma parse_m3u_nearest_extinf_witness :
  splitlines spaced_text
  = ["#EXTINF:1,Old"] ++ "#EXTINF:2 x=1, New " :: ["# comment"; ""]
    ++ " http://a/b " :: []
  ∧ extinf_info "#EXTINF:2 x=1, New " = Some ["2 x=1"; " New"]
  ∧ forallb passed_over ["# comment"; ""] = true
  ∧ is_url " http://a/b " = true
  ∧ ∃ before after,
      parse_m3u (Return spaced_text) =
        Return (before ++
                PlaylistItem.mk (Some (LenList (split_max " " 1 "2 x=1")))
                  (Some (strip " New")) (strip " http://a/b ") :: after)
      ∧ length before = length (filter is_url ["#EXTINF:1,Old"]).
Proof.
  split_and!; [vm_compute; reflexivity..|].
  apply (parse_m3u_nearest_extinf spaced_text ["#EXTINF:1,Old"]
           ["# comment"; ""] [] "#EXTINF:2 x=1, New " " http://a/b "
           "2 x=1" " New");
    vm_compute; reflexivity.
Defined.

(** X2: a text that has lines but no media URL line gives the empty playlist,
    not the empty-playlist error. *)
Theorem parse_m3u_no_url_lines (m3u_data : string) :
  splitlines m3u_data ≠ [] →
  forallb (λ l, negb (is_url l)) (splitlines m3u_data) = true →
  parse_m3u (Return m3u_data) = Return [].
Proof.
  intros Hne Hall.
  destruct (splitlines m3u_data) as [|line lines] eqn:E; [done|].
  rewrite (parse_m3u_lines _ _ _ E).
  destruct (loop_total init (line :: lines)) as (st & items & -> & Hp & Hu).
  run_bind. rewrite Hp. f_equal.
  assert (filter is_url (line :: lines) = []) as Hf.
  { clear -Hall. induction (line :: lines) as [|l ls IH]; [done|].
    simpl in Hall. apply andb_true_iff in Hall as [Hl%negb_true_iff Hall].
    rewrite filter_cons_False by (rewrite Hl; exact id). by apply IH. }
  rewrite Hf in Hu. by destruct items.
Qed.

Lemma parse_m3u_no_url_lines_witness :
  splitlines comments_only_text ≠ []
  ∧ forallb (λ l, negb (is_url l)) (splitlines comments_only_text) = true
  ∧ parse_m3u (Return comments_only_text) = Return [].
Proof.
  split_and!; [vm_compute; discriminate|vm_compute; reflexivity|].
  apply (parse_m3u_no_url_lines comments_only_text);
    [vm_compute; discriminate|vm_compute; reflexivity].
Defined.

Lemma urls_well_formed (items : list PlaylistItem.t) (lines : list string) :
  PlaylistItem.url <$> items = strip <$> lines →
  Forall (λ l, is_url l = true) lines →
  forallb url_well_formed items = true.
Proof.
  revert lines. induction items as [|item items IH]; intros [|l lines]; try done.
  rewrite !fmap_cons. intros [= Hurl Hrest] [Hl Hall]%Forall_cons.
  cbn [forallb]. rewrite (IH _ Hrest Hall), andb_true_r.
  unfold url_well_formed. cbv zeta. rewrite Hurl.
  apply is_url_not_extinf in Hl as (_ & -> & ->).
  by rewrite bool_decide_eq_true_2 by apply strip_idem.
Qed.

(** X3: every URL of a returned playlist is a non-empty text that is no comment
    and has no white space around it. *)
Theorem parse_m3u_urls_well_formed
    (m3u_data : string) (playlist : list PlaylistItem.t) :
  parse_m3u (Return m3u_data) = Return playlist →
  forallb url_well_formed playlist = true.
Proof.
  intros (st & Hloop & <-)%parse_m3u_returns.
  destruct (loop_total init (splitlines m3u_data))
    as (st' & items & Hloop' & Hp & Hu).
  rewrite Hloop in Hloop'. injection Hloop' as <-. rewrite Hp.
  apply (urls_well_formed _ _ Hu).
  apply Forall_forall. intros l Hl.
  apply list_elem_of_filter in Hl as [Hl _].
  by apply Is_true_true in Hl.
Qed.

Lemma parse_m3u_urls_well_formed_witness :
  parse_m3u (Return spaced_text)
  = Return [PlaylistItem.mk (Some (LenList ["2"; "x=1"])) (Some "New")
              "http://a/b"]
  ∧ forallb url_well_formed
      [PlaylistItem.mk (Some (LenList ["2"; "x=1"])) (Some "New") "http://a/b"]
    = true.
Proof.
  split; [vm_compute; reflexivity|].
  apply (parse_m3u_urls_well_formed spaced_text). vm_compute. reflexivity.
Defined.

Lemma split_space_well_formed info0 info1 :
  metadata_well_formed (Some (LenList (split_max " " 1 info0)))
    (Some (strip info1)) = true.
Proof.
  cbn [split_max]. destruct (partition " " info0) as [[a b]|] eqn:E.
  - apply partition_char_leftmost in E. cbn [metadata_well_formed].
    rewrite E. by rewrite !bool_decide_eq_true_2 by (apply strip_idem || (simpl; lia)).
  - apply partition_char_none in E. cbn [metadata_well_formed].
    rewrite E. by rewrite !bool_decide_eq_true_2 by (apply strip_idem || (simpl; lia)).
Qed.

Lemma loop_metadata st lines st' :
  metadata_well_formed (st_length st) (st_title st) = true →
  forallb item_metadata_well_formed (playlist st) = true →
  loop st lines = Return st' →
  metadata_well_formed (st_length st') (st_title st') = true
  ∧ forallb item_metadata_well_formed (playlist st') = true.
Proof.
  revert st. induction lines as [|l lines IH]; intros st Hm Hp.
  { by intros [= <-]. }
  destruct (is_url l) eqn:Hu.
  - rewrite (loop_cons _ _ _ _ (loop_body_url st _ Hu)).
    apply IH; [done|]. cbn [playlist].
    rewrite forallb_app, Hp. cbn. by rewrite andb_true_r.
  - destruct (sets_metadata l) eqn:Hs.
    + destruct (sets_metadata_info _ Hs) as (i0 & i1 & Hi).
      rewrite (loop_cons _ _ _ _ (loop_body_extinf st _ _ Hi)).
      apply IH; [apply split_space_well_formed|done].
    + rewrite (loop_cons _ _ _ _ (loop_body_skip st _ Hu Hs)). by apply IH.
Qed.

(** X4: in every item of a returned playlist, length and title are set together
    or not at all; a length that is set is a list of one or two strings, the
    first without a space; a title that is set has no white space around
    it. *)
Theorem parse_m3u_metadata_well_formed
    (m3u_data : string) (playlist : list PlaylistItem.t) :
  parse_m3u (Return m3u_data) = Return playlist →
  forallb item_metadata_well_formed playlist = true.
Proof.
  intros (st & Hloop & <-)%parse_m3u_returns.
  by apply (loop_metadata init (splitlines m3u_data) st).
Qed.

Lemma parse_m3u_metadata_well_formed_witness :
  parse_m3u (Return two_urls_text)
  = Return [PlaylistItem.mk (Some (LenList ["1"])) (Some "T") "http://a";
            PlaylistItem.mk None None "http://b"]
  ∧ forallb item_metadata_well_formed
      [PlaylistItem.mk (Some (LenList ["1"])) (Some "T") "http://a";
       PlaylistItem.mk None None "http://b"]
    = true.
Proof.
  split; [vm_compute; reflexivity|].
  apply (parse_m3u_metadata_well_formed two_urls_text). vm_compute. reflexivity.
Defined.

Lemma loop_effective_lines st lines :
  loop st (effective_lines lines) = loop st lines.
Proof.
  unfold effective_lines. revert st.
  induction lines as [|l lines IH]; intros st; [done|].
  destruct (passed_over l) eqn:Hp.
  - rewrite filter_cons_False by (rewrite Hp; done).
    apply andb_true_iff in Hp as [Hu%negb_true_iff Hm%negb_true_iff].
    by rewrite (loop_cons _ _ _ _ (loop_body_skip st _ Hu Hm)).
  - rewrite filter_cons_True by done. cbn [loop].
    destruct (loop_body st l); [done|]. run_bind. apply IH.
Qed.

(** X20: comments, blank lines and invalid [#EXTINF:] lines have no
    influence on the playlist: two texts that have lines and agree on the
    other lines, in order, give the same result. *)
Theorem parse_m3u_passed_over_lines_ignored (m3u_data m3u_data' : string) :
  splitlines m3u_data ≠ [] →
  splitlines m3u_data' ≠ [] →
  effective_lines (splitlines m3u_data)
  = effective_lines (splitlines m3u_data') →
  parse_m3u (Return m3u_data) = parse_m3u (Return m3u_data').
Proof.
  intros H1 H2 He.
  destruct (splitlines m3u_data) as [|l1 ls1] eqn:E1; [done|].
  destruct (splitlines m3u_data') as [|l2 ls2] eqn:E2; [done|].
  rewrite (parse_m3u_lines _ _ _ E1), (parse_m3u_lines _ _ _ E2).
  by rewrite <- (loop_effective_lines init (l1 :: ls1)), He,
    loop_effective_lines.
Qed.

Lemma parse_m3u_passed_over_lines_ignored_witness :
  splitlines spaced_text ≠ []
  ∧ splitlines compact_text ≠ []
  ∧ effective_lines (splitlines spaced_text)
    = effective_lines (splitlines compact_text)
  ∧ parse_m3u (Return spaced_text) = parse_m3u (Return compact_text).
Proof.
  split_and!; [vm_compute; discriminate..|vm_compute; reflexivity|].
  apply (parse_m3u_passed_over_lines_ignored spaced_text compact_text);
    [vm_compute; discriminate..|vm_compute; reflexivity].
Defined.

End M3uExtra.

(** ** Further properties of the PLS parser *)

Module PlsExtra.
Import ConfigParser Pls PlsFacts PlsProps.

Lemma all_interpolate_interpolates playlist_section :
  all_interpolate playlist_section = true → interpolates playlist_section.
Proof.
  intros H%bool_decide_eq_true_1 name r Hr.
  specialize (H name r Hr). simpl in H. destruct r as [e|v]; [done|by exists v].
Qed.

Lemma loop_length playlist_section playlist entries playlist' :
  loop playlist_section playlist entries = Return playlist' →
  length playlist' ≤ length playlist + length entries.
Proof.
  revert playlist. induction entries as [|entry entries IH]; intros playlist.
  { intros [= <-]. simpl. lia. }
  cbn [loop]. destruct (loop_body playlist_section playlist entry)
    as [e|playlist1] eqn:E; [done|].
  run_bind. intros H%IH. simpl.
  enough (length playlist1 ≤ length playlist + 1) by lia.
  revert E. unfold loop_body. cbv zeta.
  destruct (negb _).
  { intros [= <-]. lia. }
  destruct (proxy_get _ (option_name "Length" entry)) as [?|len];
    run_bind; [done|].
  destruct (proxy_get _ (option_name "Title" entry)) as [?|tit];
    run_bind; [done|].
  destruct (proxy_getitem _ _) as [?|u]; run_bind; [done|].
  intros [= <-]. rewrite length_app. simpl. lia.
Qed.

(** An entry is read under its three names and under no other. *)
Lemma loop_body_agree playlist_section playlist_section' playlist entry :
  agree_on (entry_names entry) playlist_section playlist_section' = true →
  loop_body playlist_section' playlist entry
  = loop_body playlist_section playlist entry.
Proof.
  unfold agree_on, entry_names. rewrite !fmap_cons. cbn [forallb].
  intros H. apply andb_true_iff in H as [Hf%bool_decide_eq_true_1 H].
  apply andb_true_iff in H as [Hl%bool_decide_eq_true_1 H].
  apply andb_true_iff in H as [Ht%bool_decide_eq_true_1 _].
  unfold loop_body, has_option, proxy_get, proxy_getitem. cbv zeta.
  by rewrite <- Hf, <- Hl, <- Ht.
Qed.

Lemma loop_agree playlist_section playlist_section' playlist entries :
  agree_on (entries ≫= entry_names) playlist_section playlist_section' = true →
  loop playlist_section' playlist entries
  = loop playlist_section playlist entries.
Proof.
  unfold agree_on. revert playlist.
  induction entries as [|entry entries IH]; intros playlist; [done|].
  rewrite bind_cons, forallb_app. intros [He Hes]%andb_true_iff.
  cbn [loop]. rewrite (loop_body_agree _ _ _ _ He).
  destruct (loop_body playlist_section playlist entry); [done|].
  run_bind. by apply IH.
Qed.

(** What [get] reads from a section satisfies [is_get_outcome]; then a
    loop that raises raises an interpolation error. *)
Lemma loop_raises playlist_section playlist entries e :
  map_Forall (λ _ r, is_get_outcome r = true) playlist_section →
  loop playlist_section playlist entries = Raise e → e = InterpolationError.
Proof.
  intros Hs. revert playlist.
  induction entries as [|entry entries IH]; intros playlist; [done|].
  cbn [loop]. destruct (loop_body playlist_section playlist entry)
    as [e'|playlist1] eqn:E.
  - run_bind. intros [= <-]. revert E.
    unfold loop_body, has_option, proxy_get, proxy_getitem. cbv zeta.
    destruct (playlist_section !! optionxform (option_name "File" entry))
      as [rf|] eqn:Ef.
    2: { by rewrite bool_decide_eq_false_2 by by intros [??]. }
    rewrite bool_decide_eq_true_2 by by eexists. cbn [negb].
    assert (∀ name r e0, playlist_section !! name = Some r →
                         r = Raise e0 → e0 = InterpolationError) as Hr.
    { intros name r e0 Hn ->. specialize (Hs _ _ Hn). simpl in Hs.
      by destruct e0. }
    destruct (playlist_section !! optionxform (option_name "Length" entry))
      as [[el|vl]|] eqn:El; run_bind;
      [intros [= <-]; exact (Hr _ _ _ El eq_refl)|..];
      (destruct (playlist_section !! optionxform (option_name "Title" entry))
        as [[et|vt]|] eqn:Et; run_bind;
        [intros [= <-]; exact (Hr _ _ _ Et eq_refl)|..]);
      (destruct rf as [ef|vf]; run_bind;
       [intros [= <-]; exact (Hr _ _ _ Ef eq_refl)|done]).
  - run_bind. apply IH.
Qed.

(** [int] raises nothing but [ValueError]. *)
Lemma py_int_raises v e : py_int v = Raise e → e = ValueError.
Proof.
  unfold py_int. cbv zeta. repeat case_match; intros [= <-]; done.
Qed.

Section parse_pls.
Variable read_string : string → option Parser.
Variable pls_data : string.

(** X5: without a [[playlist]] section, without a [Version], or with a
    [Version] that is an integer other than 2, [parse_pls] raises the
    invalid-playlist error. *)
Theorem parse_pls_invalid_playlist (pls_parser : Parser) :
  read_string pls_data = Some pls_parser →
  (pls_parser !! _PLS_SECTION_PLAYLIST = None
   ∨ ∃ playlist_section,
       pls_parser !! _PLS_SECTION_PLAYLIST = Some playlist_section
       ∧ (playlist_section !! optionxform "Version" = None
          ∨ ∃ v z, playlist_section !! optionxform "Version" = Some (Return v)
                   ∧ py_int v = Return z ∧ z ≠ 2%Z)) →
  parse_pls read_string (Return pls_data)
  = Raise (PlaylistError InvalidPlaylist).
Proof.
  intros Hp [Hs|(playlist_section & Hs & Hv)].
  { by apply (parse_pls_no_section _ _ pls_parser). }
  destruct Hv as [Hv|(v & z & Hv & Hi & Hz)].
  - apply (parse_pls_wrong_version _ _ pls_parser playlist_section None);
      [done..| |done].
    unfold proxy_getint. by rewrite Hv.
  - apply (parse_pls_wrong_version _ _ pls_parser playlist_section (Some z));
      [done..| |congruence].
    unfold proxy_getint. rewrite Hv. run_bind. by rewrite Hi.
Qed.

(** X6: with [Version] 2 and a [NumberOfEntries] that is missing or is no
    integer, [parse_pls] raises the invalid-NumberOfEntries error. *)
Theorem parse_pls_invalid_number_of_entries
    (pls_parser : Parser) (playlist_section : SectionProxy) :
  read_string pls_data = Some pls_parser →
  pls_parser !! _PLS_SECTION_PLAYLIST = Some playlist_section →
  proxy_getint playlist_section "Version" = Return (Some 2%Z) →
  playlist_section !! optionxform "NumberOfEntries" = None
  ∨ (∃ v, playlist_section !! optionxform "NumberOfEntries" = Some (Return v)
          ∧ py_int v = Raise ValueError) →
  parse_pls read_string (Return pls_data)
  = Raise (PlaylistError InvalidNumberOfEntries).
Proof.
  intros H1 H2 H3 Hn. unfold parse_pls. run_bind.
  rewrite H1, H2, H3. run_bind.
  rewrite bool_decide_eq_true_2 by done. cbn [negb].
  unfold parser_getint. destruct Hn as [->|(v & -> & Hv)].
  - reflexivity.
  - run_bind. by rewrite Hv.
Qed.

(** X8: with a [NumberOfEntries] of zero or less the playlist is empty: no
    entry is looked up and nothing is raised. *)
Theorem parse_pls_no_entries
    (pls_parser : Parser) (playlist_section : SectionProxy) (num_entries : Z) :
  read_string pls_data = Some pls_parser →
  pls_parser !! _PLS_SECTION_PLAYLIST = Some playlist_section →
  proxy_getint playlist_section "Version" = Return (Some 2%Z) →
  parser_getint playlist_section "NumberOfEntries" = Return num_entries →
  (num_entries ≤ 0)%Z →
  parse_pls read_string (Return pls_data) = Return [].
Proof.
  intros H1 H2 H3 H4 Hn. unfold parse_pls. run_bind.
  rewrite H1, H2, H3. run_bind.
  rewrite bool_decide_eq_true_2 by done. cbn [negb].
  rewrite H4. unfold entry_range. by rewrite seqZ_nil.
Qed.

(** X9: a playlist that is returned has at most [NumberOfEntries] items. *)
Theorem parse_pls_length_bound
    (pls_parser : Parser) (playlist_section : SectionProxy) (num_entries : Z)
    (playlist : list PlaylistItem.t) :
  read_string pls_data = Some pls_parser →
  pls_parser !! _PLS_SECTION_PLAYLIST = Some playlist_section →
  parser_getint playlist_section "NumberOfEntries" = Return num_entries →
  parse_pls read_string (Return pls_data) = Return playlist →
  length playlist ≤ Z.to_nat num_entries.
Proof.
  intros H1 H2 H4. unfold parse_pls. run_bind. rewrite H1, H2.
  destruct (proxy_getint playlist_section "Version") as [e|version];
    [done|]. run_bind.
  destruct (negb _); [done|]. rewrite H4.
  intros H%loop_length. unfold entry_range in H.
  rewrite length_seqZ in H. simpl in H. lia.
Qed.

(** X7: with [Version] 2, an integer [NumberOfEntries] and values that all
    interpolate, the playlist holds one item for each index from 1 to
    [NumberOfEntries] that has a [File] option, in ascending order of the
    index, with the [Length] and [Title] of that index where they exist. *)
Theorem parse_pls_items_in_order
    (pls_parser : Parser) (playlist_section : SectionProxy) (num_entries : Z) :
  read_string pls_data = Some pls_parser →
  pls_parser !! _PLS_SECTION_PLAYLIST = Some playlist_section →
  all_interpolate playlist_section = true →
  proxy_getint playlist_section "Version" = Return (Some 2%Z) →
  parser_getint playlist_section "NumberOfEntries" = Return num_entries →
  parse_pls read_string (Return pls_data)
  = Return (omap (entry_item playlist_section) (seqZ 1 num_entries)).
Proof.
  intros H1 H2 Hi%all_interpolate_interpolates H3 H4.
  by apply (parse_pls_entries _ _ pls_parser playlist_section).
Qed.

(** X11: no lookup error leaves [parse_pls]: after a fetch that succeeded it
    raises neither [KeyError] nor [NoOptionError] nor [IndexError]. *)
Theorem parse_pls_exceptions (e : exn) :
  get_outcomes_only (read_string pls_data) = true →
  parse_pls read_string (Return pls_data) = Raise e →
  may_leave_parse_pls e = true.
Proof.
  unfold get_outcomes_only, parse_pls. run_bind.
  destruct (read_string pls_data) as [pls_parser|]; [|by intros _ [= <-]].
  destruct (pls_parser !! _PLS_SECTION_PLAYLIST) as [playlist_section|];
    [|by intros _ [= <-]].
  intros Hs%bool_decide_eq_true_1.
  assert (∀ name r e0, playlist_section !! name = Some r →
                       r = Raise e0 → e0 = InterpolationError) as Hr.
  { intros name r e0 Hn ->. specialize (Hs _ _ Hn). simpl in Hs.
    by destruct e0. }
  unfold proxy_getint, parser_getint.
  destruct (playlist_section !! optionxform "Version") as [[ev|v]|] eqn:Ev;
    run_bind; [|destruct (py_int v) as [ei|z] eqn:Ei; run_bind|].
  - intros [= <-]. by rewrite (Hr _ _ _ Ev eq_refl).
  - intros [= <-]. by rewrite (py_int_raises _ _ Ei).
  - case_bool_decide; cbn [negb]; [|by intros [= <-]].
    destruct (playlist_section !! optionxform "NumberOfEntries")
      as [[en|vn]|] eqn:En; run_bind.
    + rewrite (Hr _ _ _ En eq_refl). by intros [= <-].
    + destruct (py_int vn) as [en|n] eqn:Epn.
      * rewrite (py_int_raises _ _ Epn). by intros [= <-].
      * by intros ->%(loop_raises _ _ _ _ Hs).
    + by intros [= <-].
  - by intros [= <-].
Qed.

End parse_pls.

(** X10: [parse_pls] reads the playlist section under the names it looks
    up, [Version], [NumberOfEntries] and [File], [Length], [Title] of the
    indices from 1 to [NumberOfEntries], and under no other: two parsers
    whose playlist sections give the same under these names lead to the same
    playlist or the same exception. *)
Theorem parse_pls_reads_looked_up_names
    (read_string read_string' : string → option Parser) (pls_data : string)
    (pls_parser pls_parser' : Parser)
    (playlist_section playlist_section' : SectionProxy) (num_entries : Z) :
  read_string pls_data = Some pls_parser →
  pls_parser !! _PLS_SECTION_PLAYLIST = Some playlist_section →
  read_string' pls_data = Some pls_parser' →
  pls_parser' !! _PLS_SECTION_PLAYLIST = Some playlist_section' →
  parser_getint playlist_section "NumberOfEntries" = Return num_entries →
  agree_on (looked_up num_entries) playlist_section playlist_section' = true →
  parse_pls read_string' (Return pls_data)
  = parse_pls read_string (Return pls_data).
Proof.
  intros H1 H2 H1' H2' H4 Ha.
  unfold agree_on, looked_up in Ha. cbn [forallb] in Ha.
  apply andb_true_iff in Ha as [Hv%bool_decide_eq_true_1 Ha].
  apply andb_true_iff in Ha as [Hn%bool_decide_eq_true_1 Hes].
  unfold parse_pls. run_bind. rewrite H1, H1', H2, H2'.
  unfold proxy_getint, parser_getint in *. rewrite <- Hv, <- Hn.
  destruct (playlist_section !! optionxform "Version") as [rv|];
    [destruct rv as [?|v]; [done|]; run_bind;
     destruct (py_int v); [done|]; run_bind|run_bind];
    (destruct (negb _); [done|]);
    rewrite H4; by apply loop_agree.
Qed.

Example py_int_white_space :
  py_int (String "133" "2" +:+ String "160" "") = Return 2%Z
  ∧ py_int (String "028" "2") = Raise ValueError
  ∧ py_int (String "2" (String "031" "")) = Raise ValueError.
Proof. split_and!; vm_compute; reflexivity. Qed.

Example py_int_digit_limit :
  py_int (zeros 4300) = Return 0%Z
  ∧ py_int (zeros 4301) = Raise ValueError
  ∧ py_int ("-" +:+ zeros 4301) = Raise ValueError.
Proof. split_and!; vm_compute; reflexivity. Qed.

Lemma parse_pls_invalid_playlist_witness :
  (λ _ : string, Some (parser_of version_one_section)) ""
  = Some (parser_of version_one_section)
  ∧ (parser_of version_one_section !! _PLS_SECTION_PLAYLIST = None
     ∨ ∃ playlist_section,
         parser_of version_one_section !! _PLS_SECTION_PLAYLIST
         = Some playlist_section
         ∧ (playlist_section !! optionxform "Version" = None
            ∨ ∃ v z, playlist_section !! optionxform "Version"
                     = Some (Return v)
                     ∧ py_int v = Return z ∧ z ≠ 2%Z))
  ∧ parse_pls (λ _, Some (parser_of version_one_section)) (Return "")
    = Raise (PlaylistError InvalidPlaylist).
Proof.
  assert (parser_of version_one_section !! _PLS_SECTION_PLAYLIST = None
     ∨ ∃ playlist_section,
         parser_of version_one_section !! _PLS_SECTION_PLAYLIST
         = Some playlist_section
         ∧ (playlist_section !! optionxform "Version" = None
            ∨ ∃ v z, playlist_section !! optionxform "Version"
                     = Some (Return v)
                     ∧ py_int v = Return z ∧ z ≠ 2%Z)) as H.
  { right. exists version_one_section. split; [vm_compute; reflexivity|].
    right. exists "1", 1%Z. split_and!; [vm_compute; reflexivity..|lia]. }
  split_and!; [reflexivity|exact H|].
  exact (parse_pls_invalid_playlist _ "" (parser_of version_one_section)
           eq_refl H).
Defined.

Lemma parse_pls_invalid_number_of_entries_witness :
  (λ _ : string, Some (parser_of no_number_section)) ""
  = Some (parser_of no_number_section)
  ∧ parser_of no_number_section !! _PLS_SECTION_PLAYLIST
    = Some no_number_section
  ∧ proxy_getint no_number_section "Version" = Return (Some 2%Z)
  ∧ (no_number_section !! optionxform "NumberOfEntries" = None
     ∨ (∃ v, no_number_section !! optionxform "NumberOfEntries"
             = Some (Return v)
             ∧ py_int v = Raise ValueError))
  ∧ parse_pls (λ _, Some (parser_of no_number_section)) (Return "")
    = Raise (PlaylistError InvalidNumberOfEntries).
Proof.
  split_and!; [reflexivity|vm_compute; reflexivity..
               |left; vm_compute; reflexivity|].
  apply (parse_pls_invalid_number_of_entries _ ""
           (parser_of no_number_section) no_number_section);
    [reflexivity|vm_compute; reflexivity..|left; vm_compute; reflexivity].
Defined.

Lemma parse_pls_no_entries_witness :
  (λ _ : string, Some (parser_of zero_entries_section)) ""
  = Some (parser_of zero_entries_section)
  ∧ parser_of zero_entries_section !! _PLS_SECTION_PLAYLIST
    = Some zero_entries_section
  ∧ proxy_getint zero_entries_section "Version" = Return (Some 2%Z)
  ∧ parser_getint zero_entries_section "NumberOfEntries" = Return 0%Z
  ∧ (0 ≤ 0)%Z
  ∧ parse_pls (λ _, Some (parser_of zero_entries_section)) (Return "")
    = Return [].
Proof.
  split_and!; [reflexivity|vm_compute; reflexivity..|lia|].
  apply (parse_pls_no_entries _ "" (parser_of zero_entries_section)
           zero_entries_section 0);
    [reflexivity|vm_compute; reflexivity..|lia].
Defined.

Lemma parse_pls_length_bound_witness :
  (λ _ : string, Some (parser_of two_entries_section)) ""
  = Some (parser_of two_entries_section)
  ∧ parser_of two_entries_section !! _PLS_SECTION_PLAYLIST
    = Some two_entries_section
  ∧ parser_getint two_entries_section "NumberOfEntries" = Return 2%Z
  ∧ parse_pls (λ _, Some (parser_of two_entries_section)) (Return "")
    = Return [PlaylistItem.mk None (Some "Song") "http://x";
              PlaylistItem.mk None None "http://y"]
  ∧ length [PlaylistItem.mk None (Some "Song") "http://x";
            PlaylistItem.mk None None "http://y"] ≤ Z.to_nat 2.
Proof.
  split_and!; [reflexivity|vm_compute; reflexivity..|].
  apply (parse_pls_length_bound (λ _, Some (parser_of two_entries_section)) ""
           (parser_of two_entries_section) two_entries_section 2);
    [reflexivity|vm_compute; reflexivity..].
Defined.

Lemma parse_pls_items_in_order_witness :
  (λ _ : string, Some (parser_of two_entries_section)) ""
  = Some (parser_of two_entries_section)
  ∧ parser_of two_entries_section !! _PLS_SECTION_PLAYLIST
    = Some two_entries_section
  ∧ all_interpolate two_entries_section = true
  ∧ proxy_getint two_entries_section "Version" = Return (Some 2%Z)
  ∧ parser_getint two_entries_section "NumberOfEntries" = Return 2%Z
  ∧ parse_pls (λ _, Some (parser_of two_entries_section)) (Return "")
    = Return (omap (entry_item two_entries_section) (seqZ 1 2)).
Proof.
  split_and!; [reflexivity|vm_compute; reflexivity..|].
  apply (parse_pls_items_in_order _ "" (parser_of two_entries_section)
           two_entries_section 2);
    [reflexivity|vm_compute; reflexivity..].
Defined.

Lemma parse_pls_exceptions_witness :
  get_outcomes_only ((λ _ : string, Some percent_url_parser) "") = true
  ∧ parse_pls (λ _, Some percent_url_parser) (Return "")
    = Raise InterpolationError
  ∧ may_leave_parse_pls InterpolationError = true.
Proof.
  split_and!; [vm_compute; reflexivity..|].
  apply (parse_pls_exceptions (λ _, Some percent_url_parser) "");
    vm_compute; reflexivity.
Defined.

Lemma parse_pls_reads_looked_up_names_witness :
  (λ _ : string, Some (parser_of two_entries_section)) ""
  = Some (parser_of two_entries_section)
  ∧ parser_of two_entries_section !! _PLS_SECTION_PLAYLIST
    = Some two_entries_section
  ∧ (λ _ : string, Some (parser_of three_files_section)) ""
    = Some (parser_of three_files_section)
  ∧ parser_of three_files_section !! _PLS_SECTION_PLAYLIST
    = Some three_files_section
  ∧ parser_getint two_entries_section "NumberOfEntries" = Return 2%Z
  ∧ agree_on (looked_up 2) two_entries_section three_files_section = true
  ∧ parse_pls (λ _, Some (parser_of three_files_section)) (Return "")
    = parse_pls (λ _, Some (parser_of two_entries_section)) (Return "").
Proof.
  split_and!; [reflexivity|vm_compute; reflexivity|reflexivity
               |vm_compute; reflexivity..|].
  apply (parse_pls_reads_looked_up_names _ _ ""
           (parser_of two_entries_section) (parser_of three_files_section)
           two_entries_section three_files_section 2);
    [reflexivity|vm_compute; reflexivity|reflexivity
    |vm_compute; reflexivity..].
Defined.

End PlsExtra.

(** ** Further properties of device descriptors *)

Module ChromecastInfoExtra.
Import ChromecastInfo.

Section dial.
Variable CAST_TYPE_GROUP : string.
Variable Zeroconf : Type.
Variable zconf : option Zeroconf.

Abbreviation is_group := (is_audio_group CAST_TYPE_GROUP).
Abbreviation fill := (fill_out_missing_chromecast_info CAST_TYPE_GROUP Zeroconf zconf).

(** X12: for an audio group whose group status is unknown the result always
    carries a group status: [True] exactly when the status query answers
    and lists a dynamic group with the UUID of the descriptor, [False]
    otherwise, also when the query gives nothing. *)
Theorem fill_group_status
    (get_cast_type : CastInfo.t → option Zeroconf → CastInfo.t)
    (get_multizone_status :
       list string → option Zeroconf → option MultizoneStatus.t)
    (self : t) :
  is_group self = true →
  is_dynamic_group self = None →
  ∃ b, is_dynamic_group (fill get_cast_type get_multizone_status self) = Some b
       ∧ (b = true ↔
          ∃ status,
            get_multizone_status (CastInfo.services (cast_info self)) zconf
            = Some status
            ∧ uuid self
              ∈ MultizoneStatus.uuid <$> MultizoneStatus.dynamic_groups status).
Proof.
  intros Hg Hd. unfold fill_out_missing_chromecast_info. cbv zeta.
  rewrite Hg, Hd. cbn [negb orb bool_decide]. rewrite bool_decide_eq_true_2 by done.
  cbn [negb orb is_dynamic_group]. eexists. split; [reflexivity|].
  destruct (get_multizone_status _ _) as [status|].
  - rewrite existsb_exists. split.
    + intros (g & Hin & Hu%bool_decide_eq_true_1). exists status. split; [done|].
      apply list_elem_of_fmap. exists g. split; [done|]. by apply list_elem_of_In.
    + intros (status' & [= <-] & (g & Hu & Hin)%list_elem_of_fmap).
      exists g. split; [by apply list_elem_of_In|]. by apply bool_decide_eq_true_2.
  - split; [done|]. by intros (? & ? & _).
Qed.

(** X13: the early return makes no group-status query: for a descriptor that is
    no audio group, or whose group status is known, the result is the same
    whatever the status query would answer. *)
Theorem fill_skips_status_query
    (get_cast_type : CastInfo.t → option Zeroconf → CastInfo.t)
    (get_multizone_status get_multizone_status' :
       list string → option Zeroconf → option MultizoneStatus.t)
    (self : t) :
  is_group self = false ∨ is_dynamic_group self ≠ None →
  fill get_cast_type get_multizone_status self
  = fill get_cast_type get_multizone_status' self.
Proof.
  intros H. unfold fill_out_missing_chromecast_info. cbv zeta.
  assert (negb (is_group self)
          || negb (bool_decide (is_dynamic_group self = None)) = true) as ->;
    [|done].
  destruct H as [->|H]; [done|].
  rewrite bool_decide_eq_false_2 by done. apply orb_true_r.
Qed.

(** X14: the two queries do not depend on each other: the group status of the
    result is the same whatever the capability query answers, and the
    metadata of the result is the same whatever the status query answers. *)
Theorem fill_queries_independent
    (get_cast_type get_cast_type' : CastInfo.t → option Zeroconf → CastInfo.t)
    (get_multizone_status get_multizone_status' :
       list string → option Zeroconf → option MultizoneStatus.t)
    (self : t) :
  is_dynamic_group (fill get_cast_type get_multizone_status self)
  = is_dynamic_group (fill get_cast_type' get_multizone_status self)
  ∧ cast_info (fill get_cast_type get_multizone_status self)
    = cast_info (fill get_cast_type get_multizone_status' self).
Proof.
  unfold fill_out_missing_chromecast_info. cbv zeta.
  by destruct (negb (is_group self)
               || negb (bool_decide (is_dynamic_group self = None))).
Qed.

(** X15: with cast type and manufacturer known there is no capability query: the
    result keeps the metadata of the descriptor, whatever the capability
    query would answer. *)
Theorem fill_complete_keeps_metadata
    (get_cast_type get_cast_type' : CastInfo.t → option Zeroconf → CastInfo.t)
    (get_multizone_status :
       list string → option Zeroconf → option MultizoneStatus.t)
    (self : t) :
  metadata_complete self = true →
  cast_info (fill get_cast_type get_multizone_status self) = cast_info self
  ∧ fill get_cast_type get_multizone_status self
    = fill get_cast_type' get_multizone_status self.
Proof.
  unfold metadata_complete. intros H%negb_true_iff.
  unfold fill_out_missing_chromecast_info. cbv zeta. rewrite H.
  by destruct (negb (is_group self)
               || negb (bool_decide (is_dynamic_group self = None))).
Qed.

End dial.

Lemma fill_group_status_witness :
  is_audio_group "group" living_room_group = true
  ∧ is_dynamic_group living_room_group = None
  ∧ ∃ b,
      is_dynamic_group
        (fill_out_missing_chromecast_info "group" unit None
           (λ cast_info _, cast_info)
           (λ _ _, Some (MultizoneStatus.mk
                           [MultizoneStatus.mkInfo "Living room" "uuid-g"] []))
           living_room_group)
      = Some b
      ∧ (b = true ↔
         ∃ status,
           Some (MultizoneStatus.mk
                   [MultizoneStatus.mkInfo "Living room" "uuid-g"] [])
           = Some status
           ∧ uuid living_room_group
             ∈ MultizoneStatus.uuid <$> MultizoneStatus.dynamic_groups status).
Proof.
  split_and!; [reflexivity..|].
  apply (fill_group_status "group" unit None (λ cast_info _, cast_info)
           (λ _ _, Some (MultizoneStatus.mk
                           [MultizoneStatus.mkInfo "Living room" "uuid-g"] []))
           living_room_group);
    reflexivity.
Defined.

Lemma fill_skips_status_query_witness :
  (is_audio_group "group" party_group = false
   ∨ is_dynamic_group party_group ≠ None)
  ∧ fill_out_missing_chromecast_info "group" unit None
      (λ cast_info _, cast_info) (λ _ _, None) party_group
    = fill_out_missing_chromecast_info "group" unit None
        (λ cast_info _, cast_info)
        (λ _ _, Some (MultizoneStatus.mk [] [])) party_group.
Proof.
  assert (is_audio_group "group" party_group = false
          ∨ is_dynamic_group party_group ≠ None) as H.
  { right. discriminate. }
  split; [exact H|].
  exact (fill_skips_status_query "group" unit None (λ cast_info _, cast_info)
           (λ _ _, None) (λ _ _, Some (MultizoneStatus.mk [] []))
           party_group H).
Defined.

Lemma fill_complete_keeps_metadata_witness :
  metadata_complete kitchen_speaker = true
  ∧ cast_info
      (fill_out_missing_chromecast_info "group" unit None
         (λ cast_info _, cast_info) (λ _ _, None) kitchen_speaker)
    = cast_info kitchen_speaker
  ∧ fill_out_missing_chromecast_info "group" unit None
      (λ cast_info _, cast_info) (λ _ _, None) kitchen_speaker
    = fill_out_missing_chromecast_info "group" unit None
        (λ _ _, cast_info living_room_group) (λ _ _, None) kitchen_speaker.
Proof.
  split; [reflexivity|].
  apply (fill_complete_keeps_metadata "group" unit None
           (λ cast_info _, cast_info) (λ _ _, cast_info living_room_group)
           (λ _ _, None) kitchen_speaker).
  reflexivity.
Defined.

End ChromecastInfoExtra.

(** ** Further properties of status listeners *)

Module ListenerExtra.
Import CastStatusListener CastStatusListenerFacts ListenerProps.

Section listener.
Context {CastStatus MediaStatus ConnectionStatus : Type}.
Variable CAST_TYPE_GROUP : string.

Abbreviation Listener := CastStatusListener.t.
Abbreviation Callback := (@Callback CastStatus MediaStatus ConnectionStatus).
Abbreviation Call := (@Call CastStatus MediaStatus ConnectionStatus).
Abbreviation init :=
  (@__init__ CastStatus MediaStatus ConnectionStatus CAST_TYPE_GROUP).
Abbreviation inval :=
  (@invalidate CastStatus MediaStatus ConnectionStatus CAST_TYPE_GROUP).

Lemma deliver_valid (this : Listener) (cb : Callback) :
  _valid this = true →
  deliver this cb
  = option_list (OnDevice (device_ref (_cast_device this)) <$> forwarded cb).
Proof.
  intros H. destruct cb; simpl; try done;
    unfold new_cast_status, new_media_status, new_connection_status,
      removed_from_multizone, multizone_new_media_status; by rewrite H.
Qed.

(** What reaches the own device handle while a valid listener is fed. *)
Lemma device_calls_deliver_all (this : Listener) (cbs : list Callback) :
  _valid this = true →
  device_calls (device_ref (_cast_device this)) (deliver_all this cbs)
  = omap forwarded cbs.
Proof.
  intros H. unfold deliver_all, device_calls.
  induction cbs as [|cb cbs IH]; [done|].
  rewrite fmap_cons. cbn [concat]. rewrite omap_app, IH, (deliver_valid _ _ H).
  cbn [omap list_omap]. destruct (forwarded cb); [|done].
  cbn. by rewrite decide_True by done.
Qed.

Lemma init_listener self cast_device (chromecast : Chromecast) mz_mgr mz_only :
  _valid (init self cast_device chromecast mz_mgr mz_only).1 = true
  ∧ _cast_device (init self cast_device chromecast mz_mgr mz_only).1
    = cast_device
  ∧ device_calls (device_ref cast_device)
      (init self cast_device chromecast mz_mgr mz_only).2 = [].
Proof.
  unfold __init__. cbv zeta.
  by destruct mz_only, (device_is_audio_group CAST_TYPE_GROUP cast_device).
Qed.

(** X16: a listener that is valid turns the callbacks into calls on its own
    device handle and into nothing else: one call per callback that carries
    a status, in the order of delivery, with the payload as received; a
    removal from a group becomes a cleared media status of that group;
    [added_to_multizone] and [multizone_new_cast_status] make no call. *)
Theorem deliver_all_valid (this : Listener) (cbs : list Callback) :
  _valid this = true →
  deliver_all this cbs
  = OnDevice (device_ref (_cast_device this)) <$> omap forwarded cbs.
Proof.
  intros H. unfold deliver_all.
  induction cbs as [|cb cbs IH]; [done|].
  rewrite fmap_cons. cbn [concat omap list_omap].
  rewrite IH, (deliver_valid _ _ H). by destruct (forwarded cb).
Qed.

(** X17: the constructor gives a valid listener and makes no call on the device
    handle; the three subscriptions on the connection are made in full mode,
    in the order cast status, media status, connection status, and none of
    them in multizone-only mode. *)
Theorem init_subscriptions self cast_device (chromecast : Chromecast)
    mz_mgr mz_only (device : nat) :
  _valid (init self cast_device chromecast mz_mgr mz_only).1 = true
  ∧ device_calls device (init self cast_device chromecast mz_mgr mz_only).2
    = []
  ∧ chromecast_calls (chromecast_ref chromecast)
      (init self cast_device chromecast mz_mgr mz_only).2
    = if mz_only then []
      else [cc_register_status_listener self;
            cc_media_controller_register_status_listener self;
            cc_register_connection_listener self].
Proof.
  unfold __init__. cbv zeta.
  destruct mz_only,
    (device_is_audio_group CAST_TYPE_GROUP cast_device);
    cbn; rewrite ?decide_True by done; done.
Qed.

(** X18: where the constructor registers with the multizone manager, an
    audio group in either mode and a standard receiver in full mode,
    [invalidate] makes the call that takes that registration back, with the
    same UUID and the same listener. *)
Theorem invalidate_takes_back_registration
    self cast_device chromecast mz_mgr mz_only :
  device_is_audio_group CAST_TYPE_GROUP cast_device || negb mz_only = true →
  let '(this, calls) := init self cast_device chromecast mz_mgr mz_only in
  reverses (mz_calls mz_mgr calls) (mz_calls mz_mgr (inval this).2) = true.
Proof.
  unfold __init__, invalidate, reverses. cbv zeta.
  destruct (device_is_audio_group CAST_TYPE_GROUP cast_device) eqn:Hg,
    mz_only; try done; intros _;
    cbn [_cast_device _uuid _mz_mgr CastStatusListener.self fst snd];
    rewrite Hg; cbn; rewrite !decide_True by done;
    apply bool_decide_eq_true_2; repeat constructor;
    cbn; rewrite ?bool_decide_eq_true_2 by done; done.
Qed.

(** X19: a whole life of a listener: built, fed callbacks, invalidated, fed more
    callbacks. The device handle receives the statuses delivered before the
    invalidation, in order, and nothing else. *)
Theorem lifecycle_device_calls self cast_device chromecast mz_mgr mz_only
    (before after : list Callback) :
  let '(this, calls) := init self cast_device chromecast mz_mgr mz_only in
  device_calls (device_ref cast_device)
    (calls ++ deliver_all this before ++ (inval this).2
       ++ deliver_all (inval this).1 after)
  = omap forwarded before.
Proof.
  pose proof (init_listener self cast_device chromecast mz_mgr mz_only)
    as (Hv & Hdev & Hd).
  destruct (init self cast_device chromecast mz_mgr mz_only) as [this calls].
  cbn [fst snd] in Hv, Hdev, Hd.
  rewrite (deliver_all_invalid (inval this).1 after) by done.
  rewrite app_nil_r.
  pose proof (device_calls_deliver_all this before Hv) as Hb.
  rewrite Hdev in Hb.
  assert (device_calls (device_ref cast_device) (inval this).2 = []) as Hi.
  { unfold invalidate. cbv zeta. by destruct (device_is_audio_group _ _). }
  unfold device_calls in *. rewrite !omap_app, Hd, Hb, Hi.
  by rewrite app_nil_r.
Qed.

End listener.

Lemma deliver_all_valid_witness :
  _valid (@__init__ unit unit unit "group" 3 kitchen_device
            kitchen_chromecast 2 false).1 = true
  ∧ @deliver_all unit unit unit
      (@__init__ unit unit unit "group" 3 kitchen_device
         kitchen_chromecast 2 false).1
      [cb_new_media_status (); cb_added_to_multizone "uuid-g";
       cb_removed_from_multizone "uuid-g"]
    = OnDevice
        (device_ref
           (_cast_device
              (@__init__ unit unit unit "group" 3 kitchen_device
                 kitchen_chromecast 2 false).1))
      <$> omap forwarded
            [cb_new_media_status (); cb_added_to_multizone "uuid-g";
             cb_removed_from_multizone "uuid-g"].
Proof.
  split; [reflexivity|].
  apply (@deliver_all_valid unit unit unit
           (@__init__ unit unit unit "group" 3 kitchen_device
              kitchen_chromecast 2 false).1).
  reflexivity.
Defined.

Lemma invalidate_takes_back_registration_witness :
  device_is_audio_group "group" group_device || negb true = true
  ∧ let '(this, calls) :=
      @__init__ unit unit unit "group" 6 group_device group_chromecast 2 true
    in
    reverses (mz_calls 2 calls)
      (mz_calls 2 (@invalidate unit unit unit "group" this).2)
    = true.
Proof.
  split; [reflexivity|].
  apply (@invalidate_takes_back_registration unit unit unit "group" 6
           group_device group_chromecast 2 true).
  reflexivity.
Defined.

End ListenerExtra.
